(** * Erebrus DVPN SDK: tunnel life cycle ([src/index.js])

    A shallow embedding of the SDK's tunnel orchestration: node lookup,
    client provisioning, key generation, configuration synthesis,
    interface bring-up with its manual fallback, and teardown.

    - JavaScript strings are sequences of UTF-16 code units ([list N]).
    - JavaScript values read from the network are a small [value] type
      with the property-access rules the code relies on.
    - Everything outside the source file (console, clock, child processes,
      file system, HTTP) is a [call] answered by a host; a program is a
      tree of calls ([Prog]), and [run] executes it against any host and
      records the trace.
    - An [async] function ends in an [outcome]: its promise is fulfilled,
      rejected, or left pending by an exception thrown inside a callback. *)

From stdpp Require Import base option list gmap strings.
From Stdlib Require Import NArith Lia.
From Stdlib Require Ascii String DecimalString.

Set Warnings "-register-all".
Local Open Scope N_scope.

(** ** Strings *)

Abbreviation jsstring := (list N).

(** The number with low bit [b] above the bits of [n]. *)
Definition with_bit (b : bool) (n : N) : N :=
  match n with
  | 0 => if b then 1 else 0
  | N.pos p => N.pos (if b then p~1 else p~0)
  end.

Definition code_unit (a : Ascii.ascii) : N :=
  let 'Ascii.Ascii b0 b1 b2 b3 b4 b5 b6 b7 := a in
  with_bit b0 (with_bit b1 (with_bit b2 (with_bit b3
    (with_bit b4 (with_bit b5 (with_bit b6 (with_bit b7 0))))))).

(** A source literal; only used on ASCII text. *)
Definition js (s : string) : jsstring :=
  map code_unit (String.list_ascii_of_string s).

Definition LF : jsstring := [10].
Definition DQUOTE : jsstring := [34].

Fixpoint jsstring_eqb (a b : jsstring) : bool :=
  match a, b with
  | [], [] => true
  | x :: a', y :: b' => (x =? y) && jsstring_eqb a' b'
  | _, _ => false
  end.

(** [!s] on a string: only the empty string is falsy. *)
Definition is_empty (s : jsstring) : bool :=
  match s with [] => true | _ => false end.

(** [WhiteSpace] and [LineTerminator] of ECMAScript: the class behind the
    regular expression atom [\s] and behind [String.prototype.trim]. *)
Definition is_space (c : N) : bool :=
  ((9 <=? c) && (c <=? 13)) || (c =? 32) || (c =? 160) || (c =? 5760)
  || ((8192 <=? c) && (c <=? 8202)) || (c =? 8232) || (c =? 8233)
  || (c =? 8239) || (c =? 8287) || (c =? 12288) || (c =? 65279).

Fixpoint drop_while {A} (p : A -> bool) (l : list A) : list A :=
  match l with
  | [] => []
  | x :: l' => if p x then drop_while p l' else l
  end.

Fixpoint take_while {A} (p : A -> bool) (l : list A) : list A :=
  match l with
  | [] => []
  | x :: l' => if p x then x :: take_while p l' else []
  end.

(** [s.trim()] *)
Definition trim (s : jsstring) : jsstring :=
  rev (drop_while is_space (rev (drop_while is_space s))).

(** [lit] at the start of [s], and what follows it *)
Fixpoint strip_prefix (lit s : jsstring) : option jsstring :=
  match lit, s with
  | [], _ => Some s
  | _ :: _, [] => None
  | a :: lit', b :: s' => if a =? b then strip_prefix lit' s' else None
  end.

(** [s.includes(needle)] *)
Fixpoint includes (needle s : jsstring) : bool :=
  match strip_prefix needle s with
  | Some _ => true
  | None => match s with [] => false | _ :: s' => includes needle s' end
  end.

(** Decimal rendering of a non-negative integer ([`${Date.now()}`],
    [`${array.length}`]). *)
Definition decimal (n : N) : jsstring :=
  js (DecimalString.NilZero.string_of_uint (N.to_uint n)).

(** An octal literal such as [0o600], from its digits. *)
Definition octal (digits : list N) : N :=
  fold_left (fun acc d => 8 * acc + d) digits 0.

(** ** The fallback parser's regular expressions

    [data.match(/KEY\s*=\s*([^\s]+)/)] : the leftmost match, capture
    group 1.  Both [\s*] are greedy, and what follows each of them starts
    with a character that is no space, so giving characters back never
    turns a failure into a match: at a given start there is one way to
    match.  [None] is JavaScript's [null]. *)
Definition match_at (key s : jsstring) : option jsstring :=
  match strip_prefix key s with
  | None => None
  | Some r =>
      match drop_while is_space r with
      | c :: r' =>
          if c =? 61 (* = *) then
            match take_while (fun c => negb (is_space c))
                             (drop_while is_space r') with
            | [] => None
            | v => Some v
            end
          else None
      | [] => None
      end
  end.

Fixpoint regex_field (key s : jsstring) : option jsstring :=
  match match_at key s with
  | Some v => Some v
  | None => match s with [] => None | _ :: s' => regex_field key s' end
  end.

(** ** Values and errors *)

(** A JavaScript value as [JSON.parse] and [response.json()] build them,
    plus [undefined].  A number is carried as its canonical rendering
    ([ToString] of it): the program never computes with one.  An object
    is its list of own properties, without repeated keys. *)
Inductive value : Type :=
| VUndefined
| VNull
| VBool (b : bool)
| VNum (repr : jsstring)
| VStr (s : jsstring)
| VArr (items : list value)
| VObj (fields : list (jsstring * value)).

(** An [Error] object, by its class and its [message]; [HostError]
    stands for the errors of [child_process], [fs] and [fetch]. *)
Inductive error : Type :=
| TypeError (msg : jsstring)
| SyntaxError (msg : jsstring)
| Error (msg : jsstring)
| HostError (msg : jsstring).

Definition message (e : error) : jsstring :=
  match e with TypeError m | SyntaxError m | Error m | HostError m => m end.

Definition lookup_field (k : jsstring) (fields : list (jsstring * value)) : value :=
  match find (fun kv => jsstring_eqb (fst kv) k) fields with
  | Some kv => snd kv
  | None => VUndefined
  end.

Definition cannot_read (of_ k : jsstring) : error :=
  TypeError (js "Cannot read properties of " ++ of_ ++ js " (reading '" ++ k ++ js "')").

(** [v.k] for the property names the program reads ([payload], [status],
    [id], [client], ..., [length]); none of them lives on a prototype. *)
Definition get_prop (v : value) (k : jsstring) : error + value :=
  match v with
  | VUndefined => inl (cannot_read (js "undefined") k)
  | VNull => inl (cannot_read (js "null") k)
  | VObj fields => inr (lookup_field k fields)
  | VArr items =>
      inr (if jsstring_eqb k (js "length")
           then VNum (decimal (N.of_nat (length items))) else VUndefined)
  | VStr s =>
      inr (if jsstring_eqb k (js "length")
           then VNum (decimal (N.of_nat (length s))) else VUndefined)
  | VBool _ | VNum _ => inr VUndefined
  end.

(** [v[0]] *)
Definition get_first (v : value) : error + value :=
  match v with
  | VUndefined => inl (cannot_read (js "undefined") (js "0"))
  | VNull => inl (cannot_read (js "null") (js "0"))
  | VObj fields => inr (lookup_field (js "0") fields)
  | VArr items => inr (match items with x :: _ => x | [] => VUndefined end)
  | VStr s => inr (match s with c :: _ => VStr [c] | [] => VUndefined end)
  | VBool _ | VNum _ => inr VUndefined
  end.

(** [v.k = x] in sloppy mode (the module has no ['use strict']): a
    [TypeError] on [null] and [undefined], silently nothing on a
    primitive.  A property stored on an array is never read back by the
    program (every read of the result starts at [.payload], which an array
    lacks), so the array is left as it is. *)
Definition set_prop (v : value) (k : jsstring) (x : value) : error + value :=
  match v with
  | VUndefined =>
      inl (TypeError (js "Cannot set properties of undefined (setting '" ++ k ++ js "')"))
  | VNull =>
      inl (TypeError (js "Cannot set properties of null (setting '" ++ k ++ js "')"))
  | VObj fields =>
      inr (VObj (if existsb (fun kv => jsstring_eqb (fst kv) k) fields
                 then map (fun kv => if jsstring_eqb (fst kv) k then (k, x) else kv) fields
                 else fields ++ [(k, x)]))
  | _ => inr v
  end.

(** [!!v] *)
Definition truthy (v : value) : bool :=
  match v with
  | VUndefined | VNull => false
  | VBool b => b
  | VNum repr => negb (jsstring_eqb repr (js "0") || jsstring_eqb repr (js "NaN"))
  | VStr s => match s with [] => false | _ => true end
  | VArr _ | VObj _ => true
  end.

(** An object has the own property [k], whatever its value. *)
Definition has_own (k : jsstring) (fields : list (jsstring * value)) : bool :=
  existsb (fun kv => jsstring_eqb (fst kv) k) fields.

Definition cannot_convert : error :=
  TypeError (js "Cannot convert object to primitive value").

(** [`${v}`], the abstract operation [ToString].  An object is first
    made a primitive by its [toString] method.  A parsed object
    inherits that of [Object.prototype], unless it has an own property
    of that name: no value of this type can be called, and the
    inherited [valueOf] gives the object back, so the conversion throws.
    An array is joined: [undefined] and [null] give nothing, any other
    element is converted in turn, from the first one on. *)
Fixpoint ToString (v : value) : error + jsstring :=
  match v with
  | VUndefined => inr (js "undefined")
  | VNull => inr (js "null")
  | VBool true => inr (js "true")
  | VBool false => inr (js "false")
  | VNum repr => inr repr
  | VStr s => inr s
  | VArr items =>
      (fix join (l : list value) : error + jsstring :=
         match l with
         | [] => inr []
         | x :: l' =>
             match match x with VUndefined | VNull => inr [] | _ => ToString x end with
             | inl e => inl e
             | inr s =>
                 match l' with
                 | [] => inr s
                 | _ =>
                     match join l' with
                     | inl e => inl e
                     | inr r => inr (s ++ js "," ++ r)
                     end
                 end
             end
         end) items
  | VObj fields =>
      if has_own (js "toString") fields then inl cannot_convert
      else inr (js "[object Object]")
  end.

(** [v === s] against a string *)
Definition strict_eq_string (v : value) (s : jsstring) : bool :=
  match v with VStr s' => jsstring_eqb s' s | _ => false end.

(** ** The host port *)

Record exec_result := ExecResult {
  exec_error : option error;
  stdout : jsstring;
  stderr : jsstring
}.

Definition has_error (r : exec_result) : bool :=
  match exec_error r with Some _ => true | None => false end.

Record request := Request {
  url : jsstring;
  method : jsstring;
  headers : list (jsstring * jsstring);
  body : option jsstring
}.

Record response := Response {
  status : N;
  statusText : jsstring
}.

(** What the module asks of its environment.  The callback and the
    promise flavour of a file-system function are one call; the code
    decides what an error becomes. *)
Inductive call : Type :=
| Log (msg : jsstring)                  (* console.log(`${ISO time}: ${msg}`) *)
| DateNow                               (* Date.now() *)
| Exec (cmd : jsstring)                 (* child_process.exec(cmd, callback) *)
| Fetch (req : request)                 (* fetch(url, options) *)
| ResponseJson (r : response)           (* response.json() *)
| ResponseText (r : response)           (* response.text() *)
| Mkdir (path : jsstring)               (* fs.promises.mkdir(path, {recursive: true}) *)
| ReadFile (path : jsstring)            (* fs.readFile(path, 'utf8') *)
| WriteFile (path content : jsstring) (mode : N)  (* fs.writeFile(path, content, {mode}) *)
| Rm (path : jsstring)                  (* fs.promises.rm(path, {recursive: true, force: true}) *)
| Unlink (path : jsstring)              (* fs.unlink(path) *)
| SetTimeout (ms : N).                  (* setTimeout(callback, ms) *)

Definition reply (c : call) : Type :=
  match c with
  | Log _ => unit
  | DateNow => N
  | Exec _ => exec_result
  | Fetch _ => error + response
  | ResponseJson _ => error + value
  | ResponseText _ => error + jsstring
  | Mkdir _ => option error
  | ReadFile _ => error + jsstring
  | WriteFile _ _ _ => option error
  | Rm _ => option error
  | Unlink _ => option error
  | SetTimeout _ => unit
  end.

(** A program: a result, or a call and what to do with its reply. *)
Inductive Prog (R : Type) : Type :=
| Ret (r : R)
| Vis (c : call) (k : reply c -> Prog R).
Arguments Ret {R} r.
Arguments Vis {R} c k.

(** How a promise ends: fulfilled with a value, rejected with an error,
    or never settled because an exception was thrown inside a callback
    of [exec] or [fs], where no [try] and no promise can catch it. *)
Inductive outcome (A : Type) : Type :=
| Fulfilled (a : A)
| Rejected (e : error)
| Escaped (e : error).
Arguments Fulfilled {A} a.
Arguments Rejected {A} e.
Arguments Escaped {A} e.

Definition async (A : Type) : Type := Prog (outcome A).

Definition ret {A} (a : A) : async A := Ret (Fulfilled a).
Definition throw {A} (e : error) : async A := Ret (Rejected e).
Definition escape {A} (e : error) : async A := Ret (Escaped e).

Fixpoint bind {A B} (m : async A) (k : A -> async B) : async B :=
  match m with
  | Ret (Fulfilled a) => k a
  | Ret (Rejected e) => Ret (Rejected e)
  | Ret (Escaped e) => Ret (Escaped e)
  | Vis c h => Vis c (fun x => bind (h x) k)
  end.

(** [try { m } catch (error) { h error }] *)
Fixpoint try_catch {A} (m : async A) (h : error -> async A) : async A :=
  match m with
  | Ret (Rejected e) => h e
  | Ret o => Ret o
  | Vis c k => Vis c (fun x => try_catch (k x) h)
  end.

Definition perform (c : call) : async (reply c) :=
  Vis c (fun x => Ret (Fulfilled x)).

(** [await] of a call whose reply is an error or a value *)
Definition attempt {A} (c : call) (as_sum : reply c -> error + A) : async A :=
  Vis c (fun x => match as_sum x with inl e => throw e | inr a => ret a end).

(** [await] of a call whose reply is an error or nothing *)
Definition attempt_ (c : call) (as_opt : reply c -> option error) : async unit :=
  Vis c (fun x => match as_opt x with Some e => throw e | None => ret tt end).

(** a pure step that may throw *)
Definition lift {A} (r : error + A) : async A :=
  match r with inl e => throw e | inr a => ret a end.

Declare Scope async_scope.
Delimit Scope async_scope with async.
Notation "'let*' x ':=' m 'in' k" := (bind m (fun x => k))
  (at level 10, x name, m at level 100, k at level 200) : async_scope.
Notation "m ';;;' k" := (bind m (fun _ => k))
  (at level 100, k at level 200, right associativity) : async_scope.
Local Open Scope async_scope.

(** ** Running a program on a host *)

Record entry := Entry { asked : call; answered : reply asked }.

Section Run.
Context {W : Type} (host : forall c : call, W -> reply c * W).

Fixpoint run {R} (p : Prog R) (w : W) : R * list entry * W :=
  match p with
  | Ret r => (r, [], w)
  | Vis c k =>
      let '(x, w1) := host c w in
      let '(r, t, w2) := run (k x) w1 in
      (r, Entry c x :: t, w2)
  end.
End Run.

Definition result_of {R W} (x : R * list entry * W) : R := fst (fst x).
Definition trace_of {R W} (x : R * list entry * W) : list entry := snd (fst x).
Definition calls_of {R W} (x : R * list entry * W) : list call := map asked (trace_of x).

(** ** The module *)

Definition log (msg : jsstring) : async unit := perform (Log msg).

(** [new Promise((resolve, reject) => exec(cmd, (error) => { if (error)
    reject(error); else resolve(); }))] *)
Definition exec_promise (cmd : jsstring) : async unit :=
  attempt_ (Exec cmd) exec_error.

Definition INTERFACE_DELETE : jsstring := js "sudo ip link delete dev erebrus-dvpn".
Definition DEFAULT_CONFIG_PATH : jsstring := js "/tmp/erebrus-dvpn.conf".

Definition bearer (token : jsstring) : list (jsstring * jsstring) :=
  [(js "Authorization", js "Bearer " ++ token)].

(** *** getAllNodes *)

(** [payload.filter(node => node.status === 'active')]; the callback
    throws on a [null] element. *)
Fixpoint filter_active (items : list value) : error + list value :=
  match items with
  | [] => inr []
  | node :: rest =>
      match get_prop node (js "status") with
      | inl e => inl e
      | inr st =>
          match filter_active rest with
          | inl e => inl e
          | inr kept => inr (if strict_eq_string st (js "active") then node :: kept else kept)
          end
      end
  end.

(** [payload.filter(...)]: only an array has the method. *)
Definition payload_filter (payload : value) : error + list value :=
  match payload with
  | VArr items => filter_active items
  | _ => inl (TypeError (js "data.payload.filter is not a function"))
  end.

Definition getAllNodes (token : jsstring) : async (list value) :=
  try_catch
    (log (js "Fetching all available nodes...");;;
     let* response :=
       attempt (Fetch (Request (js "https://gateway.erebrus.io/api/v1.0/nodes/all")
                               (js "GET") (bearer token) None)) id in
     let* data := attempt (ResponseJson response) id in
     let* payload := lift (get_prop data (js "payload")) in
     let* len := lift (get_prop payload (js "length")) in
     let* found := lift (ToString len) in
     log (js "Found " ++ found ++ js " nodes");;;
     let* activeNodes := lift (payload_filter payload) in
     log (decimal (N.of_nat (length activeNodes)) ++ js " nodes are active");;;
     ret activeNodes)
    (fun error =>
       log (js "Get nodes error: " ++ message error);;;
       ret []).

(** *** Key generation *)

Definition checkWireGuard : async bool :=
  log (js "Checking if WireGuard is installed...");;;
  let* r := perform (Exec (js "which wg")) in
  if has_error r || is_empty (trim (stdout r))
  then log (js "WireGuard is NOT installed on the system.");;; ret false
  else log (js "WireGuard found at: " ++ trim (stdout r));;; ret true.

Record KeyPair := { privateKey : jsstring; publicKey : jsstring }.

Definition generateWireGuardKeyPair : async (option KeyPair) :=
  try_catch
    (log (js "Generating WireGuard key pair...");;;
     let* now := perform DateNow in
     let tempDir := js "/tmp/wg-keys-" ++ decimal now in
     attempt_ (Mkdir tempDir) id;;;
     exec_promise (js "wg genkey > " ++ tempDir ++ js "/private.key");;;
     exec_promise (js "cat " ++ tempDir ++ js "/private.key | wg pubkey > "
                   ++ tempDir ++ js "/public.key");;;
     let* privateText := attempt (ReadFile (tempDir ++ js "/private.key")) id in
     let privateKey := trim privateText in
     let* publicText := attempt (ReadFile (tempDir ++ js "/public.key")) id in
     let publicKey := trim publicText in
     attempt_ (Rm tempDir) id;;;
     log (js "WireGuard key pair generated successfully");;;
     ret (Some {| privateKey := privateKey; publicKey := publicKey |}))
    (fun error =>
       log (js "Error generating WireGuard key pair: " ++ message error);;;
       ret None).

Definition generatePresharedKey : async (option jsstring) :=
  try_catch
    (log (js "Generating WireGuard preshared key...");;;
     let* now := perform DateNow in
     let tempFile := js "/tmp/wg-psk-" ++ decimal now in
     exec_promise (js "wg genpsk > " ++ tempFile);;;
     let* text := attempt (ReadFile tempFile) id in
     let presharedKey := trim text in
     attempt_ (Unlink tempFile) id;;;
     log (js "WireGuard preshared key generated successfully");;;
     ret (Some presharedKey))
    (fun error =>
       log (js "Error generating WireGuard preshared key: " ++ message error);;;
       ret None).

(** *** createWireGuardConfig *)

(** The template literal of [createWireGuardConfig], after [`${...}`] has
    turned each interpolated value into a string. *)
Definition configContent
    (privateKey address serverPublicKey presharedKey endpoint : jsstring) : jsstring :=
  js "[Interface]" ++ LF ++
  js "PrivateKey = " ++ privateKey ++ LF ++
  js "Address = " ++ address ++ LF ++
  js "DNS = 1.1.1.1, 8.8.8.8" ++ LF ++
  js "PostUp = echo 'nameserver 1.1.1.1' | resolvconf -a %i -m 0 || true" ++ LF ++
  js "PostDown = resolvconf -d %i || true" ++ LF ++
  LF ++
  js "[Peer]" ++ LF ++
  js "PublicKey = " ++ serverPublicKey ++ LF ++
  js "PresharedKey = " ++ presharedKey ++ LF ++
  js "AllowedIPs = 0.0.0.0/0, ::/0" ++ LF ++
  js "Endpoint = " ++ endpoint ++ js ":51820" ++ LF ++
  js "PersistentKeepalive = 25" ++ LF.

Definition cannot_destructure (of_ : jsstring) : error :=
  TypeError (js "Cannot destructure property 'client' of 'clientData.payload' as it is "
             ++ of_ ++ js ".").

(** [const { client, endpoint, serverPublicKey } = clientData.payload]:
    a [TypeError] on [null] and [undefined], a property read each
    otherwise. *)
Definition destructure_payload (payload : value) : error + (value * value * value) :=
  match payload with
  | VUndefined => inl (cannot_destructure (js "undefined"))
  | VNull => inl (cannot_destructure (js "null"))
  | _ =>
      match get_prop payload (js "client"), get_prop payload (js "endpoint"),
            get_prop payload (js "serverPublicKey") with
      | inr client, inr endpoint, inr serverPublicKey =>
          inr (client, endpoint, serverPublicKey)
      | inl e, _, _ | _, inl e, _ | _, _, inl e => inl e
      end
  end.

Definition createWireGuardConfig (clientData : value) : async (option jsstring) :=
  try_catch
    (let* payload := lift (get_prop clientData (js "payload")) in
     let* fields := lift (destructure_payload payload) in
     let '(client, endpoint, serverPublicKey) := fields in
     let* privateKey := lift (get_prop clientData (js "privateKey")) in
     log (js "Creating WireGuard configuration...");;;
     (* the template literal: each value is read and made a string
        before the next one is looked at *)
     let* privateText := lift (ToString privateKey) in
     let* addresses := lift (get_prop client (js "Address")) in
     let* address := lift (get_first addresses) in
     let* addressText := lift (ToString address) in
     let* publicText := lift (ToString serverPublicKey) in
     let* presharedKey := lift (get_prop client (js "PresharedKey")) in
     let* presharedText := lift (ToString presharedKey) in
     let* endpointText := lift (ToString endpoint) in
     let content :=
       configContent privateText addressText publicText presharedText endpointText in
     let configPath := DEFAULT_CONFIG_PATH in
     attempt_ (WriteFile configPath content (octal [6; 0; 0])) id;;;
     log (js "WireGuard configuration written to " ++ configPath);;;
     ret (Some configPath))
    (fun error =>
       log (js "Error creating WireGuard config: " ++ message error);;;
       ret None).

(** *** disconnectVPN and cleanupWireGuard *)

Definition disconnectVPN (configPath : option jsstring) : async bool :=
  let configPath := default DEFAULT_CONFIG_PATH configPath in
  log (js "Disconnecting from WireGuard...");;;
  let* _ := perform (Exec (js "sudo wg-quick down " ++ configPath)) in
  let* r := perform (Exec INTERFACE_DELETE) in
  match exec_error r with
  | Some error => log (js "Warning: Could not delete interface: " ++ message error)
  | None => ret tt
  end;;;
  log (js "WireGuard disconnected successfully");;;
  ret true.

Definition cleanupWireGuard : async unit :=
  log (js "Cleaning up existing WireGuard interface...");;;
  let* _ := perform (Exec (js "sudo wg-quick down erebrus-dvpn")) in
  let* _ := perform (Exec INTERFACE_DELETE) in
  log (js "Cleanup completed");;;
  ret tt.

(** *** connectToWireGuard *)

Record ParsedConfig := {
  cfg_privateKey : jsstring;
  cfg_address : jsstring;
  cfg_publicKey : jsstring;
  cfg_presharedKey : jsstring;
  cfg_endpoint : jsstring
}.

(** [data.match(re)[1]]: indexing the [null] of a failed match throws. *)
Definition match_field (key data : jsstring) : error + jsstring :=
  match regex_field key data with
  | Some v => inr v
  | None => inl (cannot_read (js "null") (js "1"))
  end.

(** The five extractions of the manual path, in source order. *)
Definition parse_config (data : jsstring) : error + ParsedConfig :=
  match match_field (js "PrivateKey") data with
  | inl e => inl e
  | inr privateKey =>
  match match_field (js "Address") data with
  | inl e => inl e
  | inr address =>
  match match_field (js "PublicKey") data with
  | inl e => inl e
  | inr publicKey =>
  match match_field (js "PresharedKey") data with
  | inl e => inl e
  | inr presharedKey =>
  match match_field (js "Endpoint") data with
  | inl e => inl e
  | inr endpoint =>
      inr {| cfg_privateKey := privateKey; cfg_address := address;
             cfg_publicKey := publicKey; cfg_presharedKey := presharedKey;
             cfg_endpoint := endpoint |}
  end end end end end.

Definition wgConf (cfg : ParsedConfig) : jsstring :=
  js "private_key=" ++ cfg_privateKey cfg ++ LF ++
  js "public_key=" ++ cfg_publicKey cfg ++ LF ++
  js "preshared_key=" ++ cfg_presharedKey cfg ++ LF ++
  js "endpoint=" ++ cfg_endpoint cfg ++ LF ++
  js "allowed_ip=0.0.0.0/0" ++ LF ++
  js "allowed_ip=::/0" ++ LF.

(** The manual sequence, one constructor per step. *)
Inductive step : Type :=
| LinkAdd
| SetConf
| AddrAdd
| LinkUp
| RouteAdd.

Definition command_of (tempConf address : jsstring) (s : step) : jsstring :=
  match s with
  | LinkAdd => js "sudo ip link add dev erebrus-dvpn type wireguard"
  | SetConf => js "sudo wg setconf erebrus-dvpn " ++ tempConf
  | AddrAdd => js "sudo ip addr add " ++ address ++ js " dev erebrus-dvpn"
  | LinkUp => js "sudo ip link set mtu 1420 up dev erebrus-dvpn"
  | RouteAdd => js "sudo ip route add default dev erebrus-dvpn"
  end.

Definition commands (tempConf address : jsstring) : list jsstring :=
  map (command_of tempConf address) [LinkAdd; SetConf; AddrAdd; LinkUp; RouteAdd].

(** [execCommands(index)], on what is left of [commands] from [index]
    on: [remaining = commands.slice(index)]. *)
Fixpoint execCommands (tempConf : jsstring) (remaining : list jsstring) : async bool :=
  match remaining with
  | [] =>
      let* _ := perform (Unlink tempConf) in
      ret true
  | cmd :: rest =>
      let* r := perform (Exec cmd) in
      match exec_error r with
      | Some cmdErr =>
          log (js "Command failed: " ++ cmd);;;
          log (js "Error: " ++ message cmdErr);;;
          let* _ := perform (Exec INTERFACE_DELETE) in
          let* _ := perform (Unlink tempConf) in
          throw cmdErr
      | None => execCommands tempConf rest
      end
  end.

Definition DNS_FIX : jsstring :=
  js "echo " ++ DQUOTE ++ js "nameserver 1.1.1.1" ++ DQUOTE
  ++ js " | sudo tee /etc/resolv.conf > /dev/null".
Definition PING : jsstring := js "ping -c 1 8.8.8.8".

Definition wg_quick_up (configPath : jsstring) : jsstring :=
  js "sudo wg-quick up " ++ configPath.

(** The manual path: what the callback of a failed [wg-quick up] does. *)
Definition manual_setup (configPath : jsstring) : async bool :=
  let* rd := perform (ReadFile configPath) in
  match rd with
  | inl readErr => throw readErr
  | inr data =>
      match parse_config data with
      | inl e => escape e
      | inr cfg =>
          let* now := perform DateNow in
          let tempConf := js "/tmp/wg-temp-" ++ decimal now ++ js ".conf" in
          let* wr := perform (WriteFile tempConf (wgConf cfg) (octal [6; 0; 0])) in
          match wr with
          | Some writeErr => throw writeErr
          | None => execCommands tempConf (commands tempConf (cfg_address cfg))
          end
      end
  end.

(** What the callback of a successful [wg-quick up] does. *)
Definition after_up : async bool :=
  log (js "WireGuard connection established!");;;
  let* d := perform (Exec DNS_FIX) in
  match exec_error d with
  | Some dnsErr => log (js "Warning: Could not set DNS: " ++ message dnsErr)
  | None => log (js "DNS configuration updated")
  end;;;
  let* _ := perform (SetTimeout 2000) in
  let* p := perform (Exec PING) in
  match exec_error p with
  | Some _ => log (js "Warning: Internet connectivity test failed")
  | None => log (js "Internet connectivity confirmed")
  end;;;
  ret true.

Definition connectToWireGuard (configPath : jsstring) : async bool :=
  log (js "Connecting to WireGuard using config: " ++ configPath);;;
  cleanupWireGuard;;;
  let* r := perform (Exec (wg_quick_up configPath)) in
  match exec_error r with
  | Some error =>
      log (js "wg-quick failed, trying manual setup: " ++ message error);;;
      log (js "stderr: " ++ stderr r);;;
      manual_setup configPath
  | None => after_up
  end.

(** *** createClient and connectDvpn *)

Section Builtins.
(** [JSON.parse] and [JSON.stringify], pure built-ins of the runtime. *)
Variable JSON_parse : jsstring -> error + value.
Variable JSON_stringify : value -> jsstring.

(** The body of the [if (rawText && rawText.trim())] branch; [data] is
    assigned before anything after [JSON.parse] can throw. *)
Definition parse_response (rawText : jsstring) (keyPair : KeyPair)
    (presharedKey : jsstring) : async value :=
  match JSON_parse rawText with
  | inl parseError =>
      log (js "Error parsing JSON: " ++ message parseError);;;
      ret VNull
  | inr data =>
      try_catch
        (log (js "Client creation response: " ++ JSON_stringify data);;;
         let* data1 := lift (set_prop data (js "privateKey") (VStr (privateKey keyPair))) in
         let* data2 := lift (set_prop data1 (js "presharedKey") (VStr presharedKey)) in
         ret data2)
        (fun parseError =>
           log (js "Error parsing JSON: " ++ message parseError);;;
           ret data)
  end.

Definition clientData_of (clientName publicKey presharedKey : jsstring) : value :=
  VObj [(js "name", VStr clientName);
        (js "publicKey", VStr publicKey);
        (js "presharedKey", VStr presharedKey)].

Definition client_request (token nodeId : jsstring) (clientData : value) : request :=
  Request (js "https://gateway.netsepio.com/api/v1.0/erebrus/client/" ++ nodeId)
          (js "POST")
          (bearer token ++ [(js "Content-Type", js "application/json")])
          (Some (JSON_stringify clientData)).

Definition createClient (token nodeId : jsstring) (clientName : option jsstring)
    : async value :=
  let clientName := default (js "client") clientName in
  try_catch
    (log (js "Creating client for node: " ++ nodeId);;;
     let* keyPair := generateWireGuardKeyPair in
     match keyPair with
     | None => throw (Error (js "Failed to generate WireGuard key pair"))
     | Some keyPair =>
     let* presharedKey := generatePresharedKey in
     match presharedKey with
     | None | Some [] => throw (Error (js "Failed to generate WireGuard preshared key"))
     | Some presharedKey =>
     let clientData := clientData_of clientName (publicKey keyPair) presharedKey in
     log (js "Sending client data: " ++ JSON_stringify clientData);;;
     let* response := attempt (Fetch (client_request token nodeId clientData)) id in
     log (js "Response status: " ++ decimal (status response) ++ js " "
          ++ statusText response);;;
     log (js "Response status: " ++ decimal (status response) ++ js " "
          ++ js "[object Response]");;;
     let* rawText := attempt (ResponseText response) id in
     log (js "Raw response: " ++ rawText);;;
     if negb (is_empty rawText) && negb (is_empty (trim rawText))
     then parse_response rawText keyPair presharedKey
     else log (js "Empty response received from server");;; ret VNull
     end end)
    (fun error =>
       log (js "Client creation error: " ++ message error);;;
       ret VNull).

(** [nodes.find(n => n.id === nodeId)] *)
Fixpoint find_node (nodeId : jsstring) (nodes : list value) : error + option value :=
  match nodes with
  | [] => inr None
  | n :: rest =>
      match get_prop n (js "id") with
      | inl e => inl e
      | inr i => if strict_eq_string i nodeId then inr (Some n) else find_node nodeId rest
      end
  end.

Definition CURL_IP : jsstring := js "curl -s https://api.ipify.org".

(** The inner [try]/[catch] of [connectDvpn] around [connectToWireGuard].
    The callback of the last [exec] runs after [true] is returned; it is
    sequenced here before the result. *)
Definition connect_step (configPath : jsstring) : async bool :=
  try_catch
    (let* _ := connectToWireGuard configPath in
     log (js "Successfully connected to DVPN via WireGuard!");;;
     let* r := perform (Exec CURL_IP) in
     match exec_error r with
     | None => log (js "Your new public IP address is: " ++ stdout r)
     | Some _ => ret tt
     end;;;
     ret true)
    (fun error =>
       log (js "Failed to connect to WireGuard: " ++ message error);;;
       ret false).

Definition connectDvpn (token nodeId : jsstring) : async bool :=
  try_catch
    (log (js "Starting DVPN connection process...");;;
     let* isWireGuardInstalled := checkWireGuard in
     if negb isWireGuardInstalled
     then log (js "Cannot connect to DVPN without WireGuard installed.");;; ret false
     else
     let* nodes := getAllNodes token in
     if (length nodes =? 0)%nat
     then log (js "No active nodes available. Cannot connect to DVPN.");;; ret false
     else
     let* selectedNode := lift (find_node nodeId nodes) in
     (* a node that is found has an [id]: it is an object, hence truthy *)
     match selectedNode with
     | None =>
         log (js "Provided nodeId " ++ nodeId ++ js " is not in the list of active nodes.");;;
         ret false
     | Some _ =>
     log (js "Connecting to specified node: " ++ nodeId);;;
     let* client := createClient token nodeId None in
     if negb (truthy client)
     then log (js "Failed to create client for the specified node.");;; ret false
     else
     log (js "DVPN client created successfully!");;;
     log (js "Client details:");;;
     (* [log(client)]: the template literal of [log] converts it *)
     let* details := lift (ToString client) in
     log details;;;
     let* configPath := createWireGuardConfig client in
     match configPath with
     | None => log (js "Failed to create WireGuard configuration.");;; ret false
     | Some configPath => connect_step configPath
     end
     end)
    (fun error =>
       log (js "DVPN Error: " ++ message error);;;
       ret false).
End Builtins.

(** ** Reading traces *)

Definition starts_with (prefix s : jsstring) : bool :=
  match strip_prefix prefix s with Some _ => true | None => false end.

Definition final_state {R W} (x : R * list entry * W) : W := snd x.

Definition count {A} (p : A -> bool) (l : list A) : nat := length (List.filter p l).

Definition is_exec (p : jsstring -> bool) (c : call) : bool :=
  match c with Exec cmd => p cmd | _ => false end.

Definition is_read (c : call) : bool :=
  match c with ReadFile _ => true | _ => false end.

(** The reply reports an error. *)
Definition failed (e : entry) : bool :=
  match e with
  | Entry c r =>
      match c return reply c -> bool with
      | Exec _ => has_error
      | Fetch _ | ResponseJson _ | ResponseText _ | ReadFile _ =>
          fun r => match r with inl _ => true | inr _ => false end
      | Mkdir _ | WriteFile _ _ _ | Rm _ | Unlink _ =>
          fun r => match r with Some _ => true | None => false end
      | Log _ | DateNow | SetTimeout _ => fun _ => false
      end r
  end.

(** Some call with property [p] failed, or succeeded, in a trace. *)
Definition some_failed (p : call -> bool) (t : list entry) : bool :=
  existsb (fun e => p (asked e) && failed e) t.
Definition some_succeeded (p : call -> bool) (t : list entry) : bool :=
  existsb (fun e => p (asked e) && negb (failed e)) t.

(** Recognisers of the commands of bring-up, by their fixed text. *)
Definition is_wg_quick_up : call -> bool :=
  is_exec (starts_with (wg_quick_up [])).
Definition is_dns_fix : call -> bool := is_exec (jsstring_eqb DNS_FIX).
Definition is_ping : call -> bool := is_exec (jsstring_eqb PING).

Definition is_step (s : step) : call -> bool :=
  is_exec
    match s with
    | LinkAdd => jsstring_eqb (command_of [] [] LinkAdd)
    | SetConf => starts_with (command_of [] [] SetConf)
    | AddrAdd => starts_with (js "sudo ip addr add ")
    | LinkUp => jsstring_eqb (command_of [] [] LinkUp)
    | RouteAdd => jsstring_eqb (command_of [] [] RouteAdd)
    end.

(** ** Hosts for the examples *)

(** A host without state, given by its replies. *)
Definition scripted (replies : forall c : call, reply c) (c : call) (w : unit)
    : reply c * unit :=
  (replies c, w).

Definition ok : exec_result := ExecResult None [] [].
Definition exit_1 (cmd : jsstring) : exec_result :=
  ExecResult (Some (HostError (js "Command failed: " ++ cmd))) [] [].
Definition ENOENT (path : jsstring) : error :=
  HostError (js "ENOENT: no such file or directory, open '" ++ path ++ js "'").

(** Every call succeeds and returns nothing. *)
Definition quiet (c : call) : reply c :=
  match c with
  | Log _ => tt
  | DateNow => 1730000000000
  | Exec _ => ok
  | Fetch _ => inr (Response 200 (js "OK"))
  | ResponseJson _ => inr VNull
  | ResponseText _ => inr []
  | Mkdir _ => None
  | ReadFile _ => inr []
  | WriteFile _ _ _ => None
  | Rm _ => None
  | Unlink _ => None
  | SetTimeout _ => tt
  end.

Definition sample_config : jsstring :=
  configContent (js "cFByaXZhdGVLZXk=") (js "10.0.0.2/32") (js "c1B1YmxpY0tleQ==")
                (js "cFNoYXJlZEtleQ==") (js "vpn.example.org").

(** [wg-quick up] and the commands for which [broken] holds fail; the
    configuration file reads as [config]. *)
Definition fallback_host (config : error + jsstring) (broken : jsstring -> bool)
    (c : call) : reply c :=
  match c with
  | Exec cmd =>
      if starts_with (wg_quick_up []) cmd || broken cmd
      then exit_1 cmd else ok
  | ReadFile _ => config
  | c => quiet c
  end.

(** A directory answer and its nodes. *)
Definition node (id status : jsstring) : value :=
  VObj [(js "id", VStr id); (js "status", VStr status)].
Definition directory (nodes : list value) : value :=
  VObj [(js "payload", VArr nodes)].

(** [wg] is installed and the node directory answers [listing]. *)
Definition directory_host (listing : error + value) (c : call) : reply c :=
  match c with
  | Exec cmd =>
      if jsstring_eqb cmd (js "which wg")
      then ExecResult None (js "/usr/bin/wg" ++ LF) [] else ok
  | ResponseJson _ => listing
  | c => quiet c
  end.

(** The commands for which [broken] holds fail; a key file reads as
    [key_text path]. *)
Definition keygen_host (broken : jsstring -> bool) (key_text : jsstring -> error + jsstring)
    (c : call) : reply c :=
  match c with
  | Exec cmd => if broken cmd then exit_1 cmd else ok
  | ReadFile path => key_text path
  | c => quiet c
  end.

(** [wg genkey] and [wg pubkey] exit with 0 and print an empty line;
    [wg genpsk] prints a key. *)
Definition blank_keys (path : jsstring) : error + jsstring :=
  if starts_with (js "/tmp/wg-keys-") path then inr LF
  else inr (js "cFNoYXJlZEtleQ==" ++ LF).

(** [JSON.stringify] on values that hold no [undefined] and whose strings
    need no escape; the examples build no others. *)
Fixpoint stringify_plain (v : value) : jsstring :=
  match v with
  | VUndefined => js "undefined"
  | VNull => js "null"
  | VBool true => js "true"
  | VBool false => js "false"
  | VNum repr => repr
  | VStr s => DQUOTE ++ s ++ DQUOTE
  | VArr items =>
      js "[" ++
      (fix join (l : list value) : jsstring :=
         match l with
         | [] => []
         | x :: l' =>
             stringify_plain x ++ match l' with [] => [] | _ => js "," ++ join l' end
         end) items
      ++ js "]"
  | VObj fields =>
      js "{" ++
      (fix join (l : list (jsstring * value)) : jsstring :=
         match l with
         | [] => []
         | (k, x) :: l' =>
             DQUOTE ++ k ++ DQUOTE ++ js ":" ++ stringify_plain x
             ++ match l' with [] => [] | _ => js "," ++ join l' end
         end) fields
      ++ js "}"
  end.

(** [JSON.parse] on the documents an example names; a [SyntaxError] on
    any other text. *)
Definition parse_known (known : list (jsstring * value)) (text : jsstring) : error + value :=
  match find (fun kv => jsstring_eqb (fst kv) text) known with
  | Some kv => inr (snd kv)
  | None => inl (SyntaxError (js "Unexpected token in JSON at position 0"))
  end.

(** ** A disk with permission bits

    The part of POSIX and of Node's [fs] that [{ mode: 0o600 }] relies on:
    [fs.writeFile(path, data, { mode })] opens with
    [O_WRONLY | O_CREAT | O_TRUNC]; the mode is used only when the file is
    created, with the bits of the process umask cleared; a file that is
    already there keeps its mode.  The process owns the files and is not
    the superuser. *)

Record file := File { file_mode : N; file_content : jsstring }.
Record disk := Disk { files : gmap jsstring file; umask : N }.

Definition EACCES (path : jsstring) : error :=
  HostError (js "EACCES: permission denied, open '" ++ path ++ js "'").

Definition owner_may_write (mode : N) : bool := N.testbit mode 7.

Definition disk_writeFile (path content : jsstring) (mode : N) (d : disk)
    : option error * disk :=
  match files d !! path with
  | Some f =>
      if owner_may_write (file_mode f)
      then (None, Disk (<[path := File (file_mode f) content]> (files d)) (umask d))
      else (Some (EACCES path), d)
  | None =>
      (None, Disk (<[path := File (N.ldiff mode (umask d)) content]> (files d)) (umask d))
  end.

Definition disk_host (c : call) (d : disk) : reply c * disk :=
  match c as c0 return reply c0 * disk with
  | WriteFile path content mode => disk_writeFile path content mode d
  | ReadFile path =>
      (match files d !! path with
       | Some f => inr (file_content f)
       | None => inl (ENOENT path)
       end, d)
  | Unlink path =>
      (match files d !! path with Some _ => None | None => Some (ENOENT path) end,
       Disk (delete path (files d)) (umask d))
  | c => (quiet c, d)
  end.

(** A provisioning answer with the keys [createClient] stored on it. *)
Definition provisioned (privateKey address serverPublicKey presharedKey endpoint : jsstring)
    : value :=
  VObj [(js "payload",
         VObj [(js "client",
                VObj [(js "Address", VArr [VStr address]);
                      (js "PresharedKey", VStr presharedKey)]);
               (js "endpoint", VStr endpoint);
               (js "serverPublicKey", VStr serverPublicKey)]);
        (js "privateKey", VStr privateKey);
        (js "presharedKey", VStr presharedKey)].

Definition sample_client : value :=
  provisioned (js "cFByaXZhdGVLZXk=") (js "10.0.0.2/32") (js "c1B1YmxpY0tleQ==")
              (js "cFNoYXJlZEtleQ==") (js "vpn.example.org").

Definition mode_of (path : jsstring) (d : disk) : option N :=
  file_mode <$> files d !! path.

(** [wg genkey] and [wg genpsk] exit with an error. *)
Definition genkey_fails : forall c : call, reply c :=
  keygen_host (starts_with (js "wg gen")) blank_keys.

(** Every command succeeds; the key pair files hold an empty line. *)
Definition blank_key_files : forall c : call, reply c :=
  keygen_host (fun _ => false) blank_keys.

(** [wg-quick up] and [wg setconf] fail. *)
Definition setconf_fails : forall c : call, reply c :=
  fallback_host (inr sample_config) (starts_with (js "sudo wg setconf")).

(** A configuration file of an earlier tool is at the path, readable by
    everyone; the umask is the usual 022. *)
Definition world_readable_leftover : disk :=
  Disk {[ DEFAULT_CONFIG_PATH := File (octal [6; 4; 4]) (js "leftover") ]} (octal [0; 2; 2]).

(** ** Words of the statements *)

Definition nonspace (c : N) : bool := negb (is_space c).

(** A value the parser can read back: not empty, no white space. *)
Definition token (v : jsstring) : bool :=
  negb (is_empty v) && forallb nonspace v.

(** The field names the parser searches for after the first one. *)
Definition later_names : list jsstring :=
  [js "Address"; js "PublicKey"; js "PresharedKey"; js "Endpoint"].

(** A value that spells none of them. *)
Definition unnamed (v : jsstring) : bool :=
  forallb (fun k => negb (includes k v)) later_names.

(** [key] cannot start at the head of [b], whatever follows [b]. *)
Fixpoint mismatch (key b : jsstring) : bool :=
  match key, b with
  | a :: key', x :: b' => if a =? x then mismatch key' b' else true
  | _, _ => false
  end.

(** [key] starts nowhere inside [pre], whatever follows [pre]. *)
Fixpoint clear_of (key pre : jsstring) : bool :=
  match pre with
  | [] => true
  | _ :: pre' => mismatch key pre && clear_of key pre'
  end.

(** One field of what the parser reads back, if it reads anything. *)
Definition read_back (field : ParsedConfig -> jsstring) (text : jsstring) : option jsstring :=
  match parse_config text with
  | inr cfg => Some (field cfg)
  | inl _ => None
  end.

Definition is_write (c : call) : bool :=
  match c with WriteFile _ _ _ => true | _ => false end.

(** A log line, or the write of the default path with mode [0o600]. *)
Definition wrote_config_or_logged (c : call) : bool :=
  match c with
  | Log _ => true
  | WriteFile path _ mode => jsstring_eqb path DEFAULT_CONFIG_PATH && (mode =? octal [6; 0; 0])
  | _ => false
  end.

Definition escaped {A} (o : outcome A) : bool :=
  match o with Escaped _ => true | _ => false end.

Definition rejected {A} (o : outcome A) : bool :=
  match o with Rejected _ => true | _ => false end.

(** The calls end with the compensation of a failed manual step: the
    interface is deleted, then the temporary configuration is unlinked. *)
Definition rolled_back (calls : list call) : bool :=
  match rev calls with
  | Unlink _ :: Exec cmd :: _ => jsstring_eqb cmd INTERFACE_DELETE
  | _ => false
  end.

(** The calls end with the checks that follow a successful [wg-quick up]:
    the DNS command, its log line, the delay, one ping, its log line. *)
Definition probed (calls : list call) : bool :=
  match rev calls with
  | Log _ :: Exec p :: SetTimeout _ :: Log _ :: Exec d :: _ =>
      jsstring_eqb d DNS_FIX && jsstring_eqb p PING
  | _ => false
  end.


(** A statement about a run, kept apart from the run while the run is
    executed symbolically. *)
Definition hold {A} (P : A -> Prop) (a : A) : Prop := P a.
Arguments hold : simpl never.

(** *** The node directory, in the words of the specification *)

(** An element [node => node.status] can be asked of. *)
Definition readable (n : value) : bool :=
  match n with VUndefined | VNull => false | _ => true end.

(** [node.status === 'active'] *)
Definition is_active (n : value) : bool :=
  match get_prop n (js "status") with
  | inr st => strict_eq_string st (js "active")
  | inl _ => false
  end.


(** The active nodes of a directory answer: those of its [payload] array
    whose status is ["active"]; none when the answer has no such array or
    the array holds a [null]. *)
Definition active_nodes (data : value) : list value :=
  match data with
  | VObj fields =>
      match lookup_field (js "payload") fields with
      | VArr items => if forallb readable items then List.filter is_active items else []
      | _ => []
      end
  | _ => []
  end.

(** The reply to [response.json()] in a trace. *)
Fixpoint json_reply (t : list entry) : option (error + value) :=
  match t with
  | [] => None
  | Entry c r :: t' =>
      match c return reply c -> option (error + value) with
      | ResponseJson _ => fun r => Some r
      | _ => fun _ => json_reply t'
      end r
  end.

(** The active node set a run was given: empty when the directory could
    not be fetched or read. *)
Definition listed_nodes (t : list entry) : list value :=
  match json_reply t with
  | Some (inr data) => active_nodes data
  | _ => []
  end.

(** [which wg] succeeded and printed a path. *)
Definition tool_found (t : list entry) : bool :=
  existsb
    (fun e =>
       match e with
       | Entry c r =>
           match c return reply c -> bool with
           | Exec cmd =>
               fun r => jsstring_eqb cmd (js "which wg") && negb (has_error r)
                        && negb (is_empty (trim (stdout r)))
           | _ => fun _ => false
           end r
       end) t.

Definition is_post (c : call) : bool :=
  match c with
  | Fetch req => jsstring_eqb (method req) (js "POST")
  | _ => false
  end.

(** The request to the directory, or the reading of its body. *)
Definition is_directory_call (c : call) : bool :=
  match c with Fetch _ | ResponseJson _ => true | _ => false end.

Definition is_fetch (c : call) : bool :=
  match c with Fetch _ => true | _ => false end.

Definition reads_body (c : call) : bool :=
  match c with ResponseJson _ => true | _ => false end.

(** What the directory is asked: all nodes, with the caller's token. *)
Definition directory_request (token : jsstring) : request :=
  {| url := js "https://gateway.erebrus.io/api/v1.0/nodes/all";
     method := js "GET";
     headers := [(js "Authorization", js "Bearer " ++ token)];
     body := None |}.

(** The reply to [fetch] in a trace. *)
Fixpoint fetch_reply (t : list entry) : option (error + response) :=
  match t with
  | [] => None
  | Entry c r :: t' =>
      match c return reply c -> option (error + response) with
      | Fetch _ => fun r => Some r
      | _ => fun _ => fetch_reply t'
      end r
  end.

Definition is_mkdir (c : call) : bool :=
  match c with Mkdir _ => true | _ => false end.
Definition is_removal (c : call) : bool :=
  match c with Rm _ | Unlink _ => true | _ => false end.

(** * Properties *)

(** ** Strings and the regular expressions *)

Lemma jsstring_eqb_eq (a b : jsstring) : jsstring_eqb a b = true <-> a = b.
Proof.
  revert b. induction a as [|x a IH]; intros [|y b]; simpl; split; try congruence; auto.
  - intros [Hx Hab]%andb_prop. apply N.eqb_eq in Hx. apply IH in Hab. congruence.
  - intros [= -> ->]. rewrite N.eqb_refl. simpl. now apply IH.
Qed.

Lemma jsstring_eqb_refl (a : jsstring) : jsstring_eqb a a = true.
Proof. now apply jsstring_eqb_eq. Qed.

Lemma strip_prefix_app (key t : jsstring) : strip_prefix key (key ++ t) = Some t.
Proof.
  induction key as [|a key IH]; simpl.
  - now destruct t.
  - now rewrite N.eqb_refl.
Qed.

Lemma mismatch_strip (key b rest : jsstring) :
  mismatch key b = true -> strip_prefix key (b ++ rest) = None.
Proof.
  revert b. induction key as [|a key IH]; intros [|x b]; simpl; try discriminate.
  destruct (a =? x); auto.
Qed.

Lemma regex_field_skip (key pre rest : jsstring) :
  clear_of key pre = true -> regex_field key (pre ++ rest) = regex_field key rest.
Proof.
  induction pre as [|x pre IH]; [reflexivity|].
  intros [Hm Hc]%andb_prop.
  change ((x :: pre) ++ rest) with (x :: pre ++ rest).
  change (regex_field key (x :: pre ++ rest))
    with (match match_at key (x :: pre ++ rest) with
          | Some v => Some v
          | None => regex_field key (pre ++ rest)
          end).
  unfold match_at.
  change (x :: pre ++ rest) with ((x :: pre) ++ rest).
  rewrite (mismatch_strip _ _ _ Hm). auto.
Qed.

Lemma strip_prefix_space (key b : jsstring) (c : N) (rest : jsstring) :
  forallb nonspace key = true -> is_space c = true ->
  strip_prefix key b = None -> strip_prefix key (b ++ c :: rest) = None.
Proof.
  intros Hkey Hc. revert b Hkey.
  induction key as [|a key IH]; intros b Hkey Hb.
  - now destruct b.
  - apply andb_prop in Hkey as [Ha Hkey].
    destruct b as [|x b]; simpl in *.
    + destruct (N.eqb_spec a c) as [->|]; [|reflexivity].
      unfold nonspace in Ha. rewrite Hc in Ha. discriminate.
    + destruct (a =? x); auto.
Qed.

Lemma regex_field_skip_value (key v rest : jsstring) :
  forallb nonspace key = true -> includes key v = false ->
  regex_field key (v ++ LF ++ rest) = regex_field key (LF ++ rest).
Proof.
  intros Hkey. induction v as [|x v IH]; [reflexivity|].
  intros Hv. simpl in Hv.
  destruct (strip_prefix key (x :: v)) eqn:Hx; [discriminate|].
  change (regex_field key ((x :: v) ++ LF ++ rest))
    with (match match_at key ((x :: v) ++ LF ++ rest) with
          | Some v => Some v
          | None => regex_field key (v ++ LF ++ rest)
          end).
  unfold match_at.
  change (LF ++ rest) with (10 :: rest) at 1.
  rewrite (strip_prefix_space key (x :: v) 10 rest Hkey eq_refl Hx). auto.
Qed.

Lemma take_while_token (v rest : jsstring) :
  forallb nonspace v = true -> take_while nonspace (v ++ LF ++ rest) = v.
Proof.
  induction v as [|x v IH]; [reflexivity|].
  intros [Hx Hv]%andb_prop. simpl. rewrite Hx. now rewrite <- IH at 2.
Qed.

Lemma regex_field_unfold (key s : jsstring) :
  regex_field key s =
  match match_at key s with
  | Some v => Some v
  | None => match s with [] => None | _ :: s' => regex_field key s' end
  end.
Proof. now destruct s. Qed.

Lemma match_at_here (key v rest : jsstring) :
  token v = true -> match_at key (key ++ js " = " ++ v ++ LF ++ rest) = Some v.
Proof.
  intros [Hne Hv]%andb_prop.
  destruct v as [|x v]; [discriminate|].
  cbn [forallb] in Hv. apply andb_prop in Hv as [Hx Hv].
  unfold match_at. rewrite strip_prefix_app.
  change (js " = " ++ (x :: v) ++ LF ++ rest)
    with (32 :: 61 :: 32 :: x :: (v ++ LF ++ rest)).
  cbn [drop_while].
  change (is_space 32) with true. change (is_space 61) with false. cbv iota.
  change (61 =? 61) with true. cbv iota.
  cbn [drop_while]. change (is_space 32) with true. cbv iota.
  unfold nonspace in Hx. destruct (is_space x) eqn:Ex; [discriminate|].
  cbn [take_while]. rewrite Ex. cbn [negb].
  change (take_while (fun c => negb (is_space c)) (v ++ LF ++ rest))
    with (take_while nonspace (v ++ LF ++ rest)).
  now rewrite take_while_token.
Qed.

Lemma regex_field_here (key lit v rest : jsstring) :
  lit = key ++ js " = " -> token v = true ->
  regex_field key (lit ++ v ++ LF ++ rest) = Some v.
Proof.
  intros -> Hv. rewrite <- app_assoc, regex_field_unfold.
  now rewrite match_at_here.
Qed.

Lemma unnamed_includes (v key : jsstring) :
  unnamed v = true -> In key later_names -> includes key v = false.
Proof.
  unfold unnamed. rewrite forallb_forall. intros H Hk.
  specialize (H key Hk). now destruct (includes key v).
Qed.

Arguments configContent : simpl never.
Arguments octal : simpl never.
Arguments decimal : simpl never.

(** Answer the next call of the program under [run host]. *)
Ltac ask host :=
  match goal with
  | |- context [host ?c ?w] =>
      let x := fresh "x" in
      let w' := fresh "w" in
      destruct (host c w) as [x w']; cbn
  end.

(** Walk a configuration text up to the field [key] and read it. *)
Ltac find_field :=
  repeat first
    [ rewrite regex_field_skip by reflexivity
    | rewrite regex_field_skip_value
        by (first [reflexivity | apply unnamed_includes; [assumption | simpl; tauto]]) ];
  rewrite regex_field_here by (first [reflexivity | assumption]).

(** ** Synthesis and the manual-path parser *)

Section Roundtrip.
Variables privateKey address serverPublicKey presharedKey endpoint : jsstring.
Hypothesis private_token : token privateKey = true.
Hypothesis address_token : token address = true.
Hypothesis public_token : token serverPublicKey = true.
Hypothesis preshared_token : token presharedKey = true.
Hypothesis endpoint_nonspace : forallb nonspace endpoint = true.
Hypothesis private_unnamed : unnamed privateKey = true.
Hypothesis address_unnamed : unnamed address = true.
Hypothesis public_unnamed : unnamed serverPublicKey = true.
Hypothesis preshared_unnamed : unnamed presharedKey = true.

Let text := configContent privateKey address serverPublicKey presharedKey endpoint.

Lemma endpoint_token : token (endpoint ++ js ":51820") = true.
Proof.
  unfold token. rewrite forallb_app, endpoint_nonspace.
  now destruct endpoint.
Qed.

Lemma found_privateKey : regex_field (js "PrivateKey") text = Some privateKey.
Proof. unfold text, configContent. find_field. reflexivity. Qed.

Lemma found_address : regex_field (js "Address") text = Some address.
Proof. unfold text, configContent. find_field. reflexivity. Qed.

Lemma found_publicKey : regex_field (js "PublicKey") text = Some serverPublicKey.
Proof. unfold text, configContent. find_field. reflexivity. Qed.

Lemma found_presharedKey : regex_field (js "PresharedKey") text = Some presharedKey.
Proof. unfold text, configContent. find_field. reflexivity. Qed.

Lemma found_endpoint :
  regex_field (js "Endpoint") text = Some (endpoint ++ js ":51820").
Proof.
  unfold text, configContent.
  rewrite (app_assoc endpoint (js ":51820")).
  pose proof endpoint_token.
  find_field. reflexivity.
Qed.

Lemma parse_synthesized :
  parse_config text =
  inr {| cfg_privateKey := privateKey; cfg_address := address;
         cfg_publicKey := serverPublicKey; cfg_presharedKey := presharedKey;
         cfg_endpoint := endpoint ++ js ":51820" |}.
Proof.
  unfold parse_config, match_field.
  now rewrite found_privateKey, found_address, found_publicKey,
    found_presharedKey, found_endpoint.
Qed.

(** C1, as amended.  When the private key, the address, the server's
    public key and the preshared key are not empty, hold no white space
    and spell none of the field names [Address], [PublicKey],
    [PresharedKey], [Endpoint], and the endpoint host holds no white
    space, then on every host [createWireGuardConfig] writes a text that
    the manual-path parser of [connectToWireGuard] reads back as the
    same private key, address, peer public key and preshared key, and
    as the endpoint the host followed by [:51820]. *)
Theorem config_roundtrip {W} (host : forall c : call, W -> reply c * W) (w : W) :
  exists content,
    nth_error (calls_of (run host (createWireGuardConfig
      (provisioned privateKey address serverPublicKey presharedKey endpoint)) w)) 1
    = Some (WriteFile DEFAULT_CONFIG_PATH content (octal [6; 0; 0])) /\
    parse_config content =
    inr {| cfg_privateKey := privateKey; cfg_address := address;
           cfg_publicKey := serverPublicKey; cfg_presharedKey := presharedKey;
           cfg_endpoint := endpoint ++ js ":51820" |}.
Proof.
  exists text. split; [|apply parse_synthesized].
  unfold calls_of, trace_of, createWireGuardConfig. cbn.
  ask host. ask host. destruct x0; cbn; ask host; reflexivity.
Qed.
End Roundtrip.

Lemma config_roundtrip_witness :
  exists content,
    nth_error (calls_of (run (scripted quiet) (createWireGuardConfig sample_client) tt)) 1
    = Some (WriteFile DEFAULT_CONFIG_PATH content (octal [6; 0; 0])) /\
    parse_config content =
    inr {| cfg_privateKey := js "cFByaXZhdGVLZXk="; cfg_address := js "10.0.0.2/32";
           cfg_publicKey := js "c1B1YmxpY0tleQ=="; cfg_presharedKey := js "cFNoYXJlZEtleQ==";
           cfg_endpoint := js "vpn.example.org" ++ js ":51820" |}.
Proof.
  apply (config_roundtrip (js "cFByaXZhdGVLZXk=") (js "10.0.0.2/32")
           (js "c1B1YmxpY0tleQ==") (js "cFNoYXJlZEtleQ==") (js "vpn.example.org"));
    reflexivity.
Defined.

(** C1, as stated, fails.  On well-formed input the endpoint read back
    is not the host the text was made from: it carries the port.  And an
    address with white space in it, as in a list of two networks, is
    read back cut at the first blank. *)
Lemma roundtrip_counterexample :
  read_back cfg_endpoint
     (configContent (js "cFByaXZhdGVLZXk=") (js "10.0.0.2/32") (js "c1B1YmxpY0tleQ==")
                    (js "cFNoYXJlZEtleQ==") (js "vpn.example.org"))
  = Some (js "vpn.example.org:51820")
  /\ js "vpn.example.org:51820" <> js "vpn.example.org"
  /\ read_back cfg_address
        (configContent (js "cFByaXZhdGVLZXk=") (js "10.0.0.2/32, fd00::2/128")
                       (js "c1B1YmxpY0tleQ==") (js "cFNoYXJlZEtleQ==")
                       (js "vpn.example.org"))
     = Some (js "10.0.0.2/32,")
  /\ js "10.0.0.2/32," <> js "10.0.0.2/32, fd00::2/128".
Proof. repeat split; try reflexivity; discriminate. Qed.

(** ** Symbolic execution *)

(** Split on the reply a stuck [match] waits for. *)
Ltac case_reply :=
  match goal with
  | |- context [exec_error ?x] => is_var x; destruct x as [[?|] ? ?]; cbn
  | |- context [has_error ?x] => is_var x; destruct x as [[?|] ? ?]; cbn
  | |- context [match ?x with inl _ => _ | inr _ => _ end] => is_var x; destruct x; cbn
  | |- context [match ?x with Some _ => _ | None => _ end] => is_var x; destruct x; cbn
  | |- context [parse_config ?d] => destruct (parse_config d) eqn:?; cbn
  end.

(** Set the statement apart from the first run it speaks of. *)
Ltac focus_run host :=
  match goal with
  | |- context [run host ?p ?w] =>
      pattern (run host p w);
      match goal with |- ?P _ => change (hold P (run host p w)) end
  end.

(** Follow the program along every way the host may answer. *)
Ltac execute host := cbn; repeat first [ask host | case_reply].

(** Decide a statement about a concrete result and trace by evaluation. *)
Ltac settle :=
  unfold hold; cbv beta;
  repeat match goal with
    | |- _ /\ _ => split
    | |- forall s : step, _ => let s := fresh "s" in intros s; destruct s
    | |- _ -> _ =>
        let H := fresh "H" in
        intros H; vm_compute in H; try discriminate H; clear H
    end;
  try solve [vm_compute; first [reflexivity | lia]].

(** ** Bring-up and teardown *)

Section Bringup.
Context {W : Type} (host : forall c : call, W -> reply c * W).

(** C2.  In every run of [connectToWireGuard] in which [wg-quick up]
    fails, the fallback is entered once: the configuration is read
    exactly once, no manual step is issued twice, and the first manual
    step is issued exactly once when the read, the parse and the write
    of the temporary file succeed.  When the second step, [wg setconf],
    fails, none of the three later steps is issued (so no default route
    is installed), the promise is rejected, and the run ends by
    deleting the interface and unlinking the temporary file. *)
Theorem fallback_once_and_rollback (w : W) (configPath : jsstring) :
  let x := run host (connectToWireGuard configPath) w in
  some_failed is_wg_quick_up (trace_of x) = true ->
  count is_read (calls_of x) = 1%nat /\
  (forall s, (count (is_step s) (calls_of x) <= 1)%nat) /\
  (some_failed is_read (trace_of x) = false ->
   some_failed is_write (trace_of x) = false ->
   escaped (result_of x) = false ->
   count (is_step LinkAdd) (calls_of x) = 1%nat) /\
  (some_failed (is_step SetConf) (trace_of x) = true ->
   count (is_step AddrAdd) (calls_of x) = 0%nat /\
   count (is_step LinkUp) (calls_of x) = 0%nat /\
   count (is_step RouteAdd) (calls_of x) = 0%nat /\
   rejected (result_of x) = true /\
   rolled_back (calls_of x) = true).
Proof.
  intros x; subst x. focus_run host.
  unfold connectToWireGuard, manual_setup, after_up.
  execute host.
  all: settle.
Qed.

(** What the code does after bring-up.  When [wg-quick up] succeeds,
    it runs the DNS command and then exactly one ping, and is fulfilled
    with [true] whatever the two answer.  When [wg-quick up] fails,
    neither the DNS command nor the ping is ever run, also when the
    manual path brings the interface up. *)
Lemma probe_after_primary_only (w : W) (configPath : jsstring) :
  let x := run host (connectToWireGuard configPath) w in
  (some_succeeded is_wg_quick_up (trace_of x) = true ->
   result_of x = Fulfilled true /\
   probed (calls_of x) = true /\
   count is_dns_fix (calls_of x) = 1%nat /\
   count is_ping (calls_of x) = 1%nat) /\
  (some_failed is_wg_quick_up (trace_of x) = true ->
   count is_dns_fix (calls_of x) = 0%nat /\
   count is_ping (calls_of x) = 0%nat).
Proof.
  intros x; subst x. focus_run host.
  unfold connectToWireGuard, manual_setup, after_up.
  execute host.
  all: settle.
Qed.


Lemma disconnectVPN_fulfilled (w : W) (configPath : option jsstring) :
  result_of (run host (disconnectVPN configPath) w) = Fulfilled true.
Proof.
  focus_run host. unfold disconnectVPN. execute host; reflexivity.
Qed.

(** C4.  From every host state and for every path argument,
    [disconnectVPN] is fulfilled with [true]: it is never rejected and
    no exception escapes it, whatever the two commands answer.  So is a
    second call from the state the first one left, and so is the
    sequence of the two. *)
Theorem disconnect_always_succeeds (w : W) (first second : option jsstring) :
  let x := run host (disconnectVPN first) w in
  result_of x = Fulfilled true /\
  result_of (run host (disconnectVPN second) (final_state x)) = Fulfilled true /\
  result_of (run host (disconnectVPN first;;; disconnectVPN second) w) = Fulfilled true.
Proof.
  cbv zeta. split; [apply disconnectVPN_fulfilled|].
  split; [apply disconnectVPN_fulfilled|].
  focus_run host. unfold disconnectVPN. execute host; reflexivity.
Qed.
End Bringup.

Lemma fallback_once_and_rollback_witness :
  let x := run (scripted setconf_fails) (connectToWireGuard DEFAULT_CONFIG_PATH) tt in
  some_failed is_wg_quick_up (trace_of x) = true /\
  some_failed (is_step SetConf) (trace_of x) = true /\
  count is_read (calls_of x) = 1%nat /\
  count (is_step LinkAdd) (calls_of x) = 1%nat /\
  count (is_step RouteAdd) (calls_of x) = 0%nat /\
  rolled_back (calls_of x) = true.
Proof.
  intros x.
  assert (Hup : some_failed is_wg_quick_up (trace_of x) = true) by reflexivity.
  assert (Hconf : some_failed (is_step SetConf) (trace_of x) = true) by reflexivity.
  destruct (fallback_once_and_rollback (scripted setconf_fails) tt DEFAULT_CONFIG_PATH Hup)
    as (Hread & _ & _ & Hroll).
  destruct (Hroll Hconf) as (_ & _ & Hroute & _ & Hback).
  split; [exact Hup|]. split; [exact Hconf|]. split; [exact Hread|].
  split; [reflexivity|]. split; [exact Hroute|exact Hback].
Defined.

Lemma probe_after_primary_only_witness :
  let x := run (scripted quiet) (connectToWireGuard DEFAULT_CONFIG_PATH) tt in
  some_succeeded is_wg_quick_up (trace_of x) = true /\
  result_of x = Fulfilled true /\
  probed (calls_of x) = true /\
  count is_ping (calls_of x) = 1%nat.
Proof.
  intros x.
  assert (Hup : some_succeeded is_wg_quick_up (trace_of x) = true) by reflexivity.
  destruct (probe_after_primary_only (scripted quiet) tt DEFAULT_CONFIG_PATH) as [Hok _].
  destruct (Hok Hup) as (Hres & Hprobed & _ & Hping).
  split; [exact Hup|]. split; [exact Hres|]. split; [exact Hprobed|exact Hping].
Defined.

(** C9, evaluated where it fails.  [wg-quick up] fails, the manual path
    brings the interface up and bring-up reports success, and neither
    the DNS command nor the ping was run. *)
Lemma fallback_success_without_probe :
  let x := run (scripted (fallback_host (inr sample_config) (fun _ => false)))
               (connectToWireGuard DEFAULT_CONFIG_PATH) tt in
  result_of x = Fulfilled true /\
  count (is_step RouteAdd) (calls_of x) = 1%nat /\
  count is_dns_fix (calls_of x) = 0%nat /\
  count is_ping (calls_of x) = 0%nat.
Proof. repeat split; reflexivity. Qed.



Lemma disconnect_always_succeeds_example :
  result_of (run (scripted (fun c => match c with Exec cmd => exit_1 cmd | c => quiet c end))
                 (disconnectVPN None;;; disconnectVPN None) tt)
  = Fulfilled true.
Proof. reflexivity. Qed.

(** ** Key generation *)

Section Keys.
Context {W : Type} (host : forall c : call, W -> reply c * W).

(** Both generators always return: a key, or [null]. *)
Lemma key_generation_returns (w : W) :
  (exists r, result_of (run host generateWireGuardKeyPair w) = Fulfilled r) /\
  (exists r, result_of (run host generatePresharedKey w) = Fulfilled r).
Proof.
  split; focus_run host;
    unfold generateWireGuardKeyPair, generatePresharedKey, exec_promise;
    execute host; eexists; reflexivity.
Qed.

(** The temporary directory and file are removed on the way to success
    only: a run that returns [null] has removed nothing. *)
Lemma cleanup_only_on_success (w : W) :
  let x := run host generateWireGuardKeyPair w in
  let y := run host generatePresharedKey w in
  (result_of x = Fulfilled None -> some_succeeded is_removal (trace_of x) = false) /\
  (result_of y = Fulfilled None -> some_succeeded is_removal (trace_of y) = false).
Proof.
  intros x y; subst x y. split; focus_run host;
    unfold generateWireGuardKeyPair, generatePresharedKey, exec_promise;
    execute host; settle.
Qed.

(** A key file that cannot be read makes the generator return [null]. *)
Lemma unreadable_key_is_null (w : W) :
  let x := run host generateWireGuardKeyPair w in
  let y := run host generatePresharedKey w in
  (some_failed is_read (trace_of x) = true -> result_of x = Fulfilled None) /\
  (some_failed is_read (trace_of y) = true -> result_of y = Fulfilled None).
Proof.
  intros x y; subst x y. split; focus_run host;
    unfold generateWireGuardKeyPair, generatePresharedKey, exec_promise;
    execute host; settle.
Qed.
End Keys.

(** C7, evaluated where it fails.  [wg genkey] fails after the
    temporary directory was made: the generator logs the error and
    returns [null], and nothing was removed.  [wg genpsk] fails after the
    shell has created the file its output is redirected to: the same. *)
Lemma temporary_files_left_behind :
  let x := run (scripted genkey_fails) generateWireGuardKeyPair tt in
  let y := run (scripted genkey_fails) generatePresharedKey tt in
  (result_of x = Fulfilled None /\
   calls_of x = [Log (js "Generating WireGuard key pair...");
                 DateNow;
                 Mkdir (js "/tmp/wg-keys-1730000000000");
                 Exec (js "wg genkey > /tmp/wg-keys-1730000000000/private.key");
                 Log (js "Error generating WireGuard key pair: Command failed: wg genkey > /tmp/wg-keys-1730000000000/private.key")] /\
   some_succeeded is_mkdir (trace_of x) = true /\
   count is_removal (calls_of x) = 0%nat) /\
  (result_of y = Fulfilled None /\
   calls_of y = [Log (js "Generating WireGuard preshared key...");
                 DateNow;
                 Exec (js "wg genpsk > /tmp/wg-psk-1730000000000");
                 Log (js "Error generating WireGuard preshared key: Command failed: wg genpsk > /tmp/wg-psk-1730000000000")] /\
   count is_removal (calls_of y) = 0%nat).
Proof. repeat split; reflexivity. Qed.

(** C8, evaluated where it fails.  [wg genkey] and [wg pubkey] exit
    with 0 and leave files that hold only a line end: the generator
    returns a key pair of two empty strings, which [createClient] takes
    for a key pair, and the request to the provisioning service carries
    the empty public key. *)
Lemma blank_key_pair_reaches_provisioning :
  let token := js "token" in
  let nodeId := js "A" in
  result_of (run (scripted blank_key_files) generateWireGuardKeyPair tt)
  = Fulfilled (Some {| privateKey := []; publicKey := [] |}) /\
  nth_error
    (calls_of (run (scripted blank_key_files)
                   (createClient (parse_known []) stringify_plain token nodeId None) tt)) 17
  = Some (Fetch (client_request stringify_plain token nodeId
                   (clientData_of (js "client") [] (js "cFNoYXJlZEtleQ==")))).
Proof. split; reflexivity. Qed.

(** An empty preshared key is falsy: when every key file holds only a
    line end, [createClient] stops at the preshared key, before the
    request. *)
Lemma blank_preshared_key_aborts :
  let host := scripted (keygen_host (fun _ => false) (fun _ => inr LF)) in
  let x := run host (createClient (parse_known []) stringify_plain (js "token") (js "A") None) tt in
  result_of x = Fulfilled VNull /\ count is_post (calls_of x) = 0%nat.
Proof. split; reflexivity. Qed.

(** ** The mode of the configuration file *)

Lemma created_mode_is_owner_only (u : N) :
  N.land (N.ldiff (octal [6; 0; 0]) u) (octal [0; 7; 7]) = 0.
Proof.
  apply N.bits_inj. intros n.
  rewrite N.land_spec, N.ldiff_spec, N.bits_0.
  assert (H : N.testbit (N.land (octal [6; 0; 0]) (octal [0; 7; 7])) n = false)
    by (change (N.land (octal [6; 0; 0]) (octal [0; 7; 7])) with 0; apply N.bits_0).
  rewrite N.land_spec in H.
  destruct (N.testbit (octal [6; 0; 0]) n), (N.testbit (octal [0; 7; 7]) n),
    (N.testbit u n); simpl in *; congruence.
Qed.

Lemma created_mode_is_0600 (u : N) :
  N.land u (octal [6; 0; 0]) = 0 -> N.ldiff (octal [6; 0; 0]) u = octal [6; 0; 0].
Proof.
  intros H. apply N.bits_inj. intros n.
  rewrite N.ldiff_spec.
  assert (Hn : N.testbit (N.land u (octal [6; 0; 0])) n = false)
    by (rewrite H; apply N.bits_0).
  rewrite N.land_spec in Hn.
  destruct (N.testbit (octal [6; 0; 0]) n), (N.testbit u n); simpl in *; congruence.
Qed.

Lemma writeFile_creates (path content : jsstring) (mode : N) (d : disk) :
  files d !! path = None ->
  let d' := snd (disk_writeFile path content mode d) in
  fst (disk_writeFile path content mode d) = None /\
  files d' !! path = Some (File (N.ldiff mode (umask d)) content).
Proof.
  intros H. unfold disk_writeFile. rewrite H. cbn.
  split; [reflexivity|]. apply lookup_insert_eq.
Qed.

Lemma writeFile_keeps_mode (path content : jsstring) (mode : N) (d : disk) (f : file) :
  files d !! path = Some f -> owner_may_write (file_mode f) = true ->
  let d' := snd (disk_writeFile path content mode d) in
  fst (disk_writeFile path content mode d) = None /\
  files d' !! path = Some (File (file_mode f) content).
Proof.
  intros H Hw. unfold disk_writeFile. rewrite H, Hw. cbn.
  split; [reflexivity|]. apply lookup_insert_eq.
Qed.

(** On a disk where the path is free, the configuration of a
    well-formed provisioning answer is created with mode
    [0o600 & ~umask]: never a group or world bit, and exactly [0o600]
    when the umask masks no owner bit. *)
Lemma config_mode_when_created
    (privateKey address serverPublicKey presharedKey endpoint : jsstring) (d : disk) :
  files d !! DEFAULT_CONFIG_PATH = None ->
  let x := run disk_host (createWireGuardConfig
             (provisioned privateKey address serverPublicKey presharedKey endpoint)) d in
  result_of x = Fulfilled (Some DEFAULT_CONFIG_PATH) /\
  mode_of DEFAULT_CONFIG_PATH (final_state x) = Some (N.ldiff (octal [6; 0; 0]) (umask d)).
Proof.
  intros Hfree x; subst x.
  unfold createWireGuardConfig, result_of, final_state, mode_of. cbn.
  unfold disk_writeFile.
  change [47; 116; 109; 112; 47; 101; 114; 101; 98; 114; 117; 115; 45; 100; 118; 112;
          110; 46; 99; 111; 110; 102] with DEFAULT_CONFIG_PATH.
  rewrite Hfree. cbn. split; [reflexivity|].
  change [47; 116; 109; 112; 47; 101; 114; 101; 98; 114; 117; 115; 45; 100; 118; 112;
          110; 46; 99; 111; 110; 102] with DEFAULT_CONFIG_PATH.
  now rewrite lookup_insert_eq.
Qed.

(** C5, evaluated where it fails.  The path holds a file of mode 0644:
    the write succeeds and the new configuration, private key included,
    is left with mode 0644.  And on a free path under umask 0277 the file
    is created with mode 0400. *)
Lemma config_mode_not_forced :
  let x := run disk_host (createWireGuardConfig sample_client) world_readable_leftover in
  let y := run disk_host (createWireGuardConfig sample_client) (Disk ∅ (octal [2; 7; 7])) in
  (result_of x = Fulfilled (Some DEFAULT_CONFIG_PATH) /\
   files (final_state x) !! DEFAULT_CONFIG_PATH = Some (File (octal [6; 4; 4]) sample_config)) /\
  (result_of y = Fulfilled (Some DEFAULT_CONFIG_PATH) /\
   mode_of DEFAULT_CONFIG_PATH (final_state y) = Some (octal [4; 0; 0])).
Proof. repeat split; reflexivity. Qed.

(** ** The node directory and [connectDvpn] *)

Arguments active_nodes : simpl never.
Arguments get_prop !v k : simpl nomatch.
Arguments payload_filter !payload : simpl nomatch.

Lemma filter_active_readable (items : list value) :
  forallb readable items = true ->
  filter_active items = inr (List.filter is_active items).
Proof.
  induction items as [|n items IH]; [reflexivity|].
  intros [Hn Hitems]%andb_prop.
  cbn [filter_active List.filter]. unfold is_active at 1.
  rewrite (IH Hitems).
  destruct n; try discriminate; reflexivity.
Qed.

Lemma filter_active_null (items : list value) :
  forallb readable items = false -> exists e, filter_active items = inl e.
Proof.
  induction items as [|n items IH]; [discriminate|].
  cbn [forallb filter_active]. intros H.
  destruct n; cbn [readable andb get_prop] in *; try (eexists; reflexivity).
  all: destruct (IH H) as [e ->]; eexists; reflexivity.
Qed.

(** The code's three steps on the answer give the active nodes of the
    specification. *)
Lemma active_nodes_eq (data : value) :
  active_nodes data =
  match get_prop data (js "payload") with
  | inr payload =>
      match get_prop payload (js "length"), payload_filter payload with
      | inr _, inr l => l
      | _, _ => []
      end
  | inl _ => []
  end.
Proof.
  unfold active_nodes.
  destruct data; try reflexivity.
  cbn [get_prop]. destruct (lookup_field (js "payload") fields); try reflexivity.
  cbn [get_prop payload_filter].
  destruct (forallb readable items) eqn:Hr.
  - now rewrite filter_active_readable.
  - destruct (filter_active_null _ Hr) as [e ->]. reflexivity.
Qed.


(** A decimal rendering starts with a digit, not with the [C] of
    [Creating client]. *)
Lemma decimal_head (n : N) (p s : jsstring) :
  starts_with (67 :: p) (decimal n ++ s) = false.
Proof.
  unfold decimal. destruct (N.to_uint n); reflexivity.
Qed.

Arguments find_node : simpl never.
Arguments generateWireGuardKeyPair : simpl never.
Arguments trim : simpl never.

Arguments ToString !v : simpl nomatch.
Arguments destructure_payload : simpl never.

(** The [length] of what can be filtered is a number, which converts. *)
Lemma length_converts (payload len : value) (kept : list value) :
  get_prop payload (js "length") = inr len -> payload_filter payload = inr kept ->
  exists text, ToString len = inr text.
Proof.
  destruct payload; try discriminate. cbn. intros [= <-] _. eauto.
Qed.

(** Split on what a property read, a conversion or the filter gives. *)
Ltac case_pure :=
  match goal with
  | |- context [get_prop ?v ?k] =>
      let H := fresh "Hget" in destruct (get_prop v k) eqn:H; cbn
  | |- context [ToString ?v] =>
      let H := fresh "Htext" in destruct (ToString v) eqn:H; cbn
  | |- context [payload_filter ?v] =>
      let H := fresh "Hfilter" in destruct (payload_filter v) eqn:H; cbn
  | |- context [destructure_payload ?v] =>
      let H := fresh "Hpayload" in
      destruct (destructure_payload v) as [?|[[? ?] ?]] eqn:H; cbn
  end.

(** A length that does not convert is not that of an array. *)
Ltac unconverted :=
  match goal with
  | Ht : ToString ?len = inl _, Hl : get_prop ?p _ = inr ?len,
    Hf : payload_filter ?p = inr _ |- _ =>
      let Hc := fresh in
      exfalso; destruct (length_converts _ _ _ Hl Hf) as [? Hc];
      rewrite Hc in Ht; discriminate Ht
  end.

(** Split on the tests of [connectDvpn]. *)
Ltac case_connect :=
  match goal with
  | |- context [is_empty (trim ?s)] => destruct (is_empty (trim s)) eqn:?; cbn
  | |- context [find_node ?i ?l] =>
      let H := fresh "Hfind" in destruct (find_node i l) as [?|[?|]] eqn:H; cbn
  | |- context [(length ?l =? 0)%nat] => is_var l; destruct l; cbn
  end.

(** Read the node set of a trace off the equations of the execution. *)
Ltac listed :=
  unfold hold, listed_nodes, result_of, calls_of, trace_of; cbn;
  rewrite ?active_nodes_eq; cbn;
  repeat match goal with
         | H : get_prop _ _ = _ |- _ => rewrite H; cbn
         | H : payload_filter _ = _ |- _ => rewrite H; cbn
         end;
  try match goal with
      | |- context [payload_filter ?v] =>
          let H := fresh "Hfilter" in destruct (payload_filter v) eqn:H; cbn
      end;
  try unconverted;
  rewrite ?decimal_head; cbn.

(** Execute [connectDvpn] up to the call of [generateWireGuardKeyPair],
    and name what the rest of the run gives. *)
Ltac execute_connect host :=
  cbn; repeat first [ask host | case_reply | case_pure | case_connect];
  try match goal with
      | |- context [run host ?p ?w] => destruct (run host p w) as [[? ?] ?]
      end.


Section Directory.
Context {W : Type} (host : forall c : call, W -> reply c * W).

Lemma getAllNodes_total (w : W) (token : jsstring) :
  let x := run host (getAllNodes token) w in
  result_of x = Fulfilled (listed_nodes (trace_of x)).
Proof.
  intros x; subst x. focus_run host. unfold getAllNodes.
  cbn. repeat first [ask host | case_reply | case_pure].
  all: listed; reflexivity.
Qed.

Lemma getAllNodes_failure (w : W) (token : jsstring) :
  let x := run host (getAllNodes token) w in
  some_failed is_directory_call (trace_of x) = true -> result_of x = Fulfilled [].
Proof.
  intros x; subst x. focus_run host. unfold getAllNodes.
  cbn. repeat first [ask host | case_reply | case_pure].
  all: unfold hold; cbn; intros H; try discriminate H; reflexivity.
Qed.

Lemma getAllNodes_success (w : W) (token : jsstring) (items : list value) :
  let x := run host (getAllNodes token) w in
  json_reply (trace_of x) = Some (inr (directory items)) ->
  forallb readable items = true ->
  result_of x = Fulfilled (List.filter is_active items).
Proof.
  intros x Hjson Hitems. subst x.
  rewrite getAllNodes_total. unfold listed_nodes. rewrite Hjson.
  unfold active_nodes, directory. cbn. now rewrite Hitems.
Qed.

Variable JSON_parse : jsstring -> error + value.
Variable JSON_stringify : value -> jsstring.


(** [getAllNodes] asks the directory: one request, for all nodes and
    with the token, and when it is answered the body of that response
    is read, once. *)
Lemma getAllNodes_asks (w : W) (token : jsstring) :
  let x := run host (getAllNodes token) w in
  List.filter is_fetch (calls_of x) = [Fetch (directory_request token)] /\
  (forall r, fetch_reply (trace_of x) = Some (inr r) ->
             List.filter reads_body (calls_of x) = [ResponseJson r]).
Proof.
  intros x; subst x. focus_run host. unfold getAllNodes.
  cbn. repeat first [ask host | case_reply | case_pure].
  all: unfold hold; cbn; split; [reflexivity|].
  all: intros r0 [= <-]; reflexivity.
Qed.

Lemma getAllNodes_null (w : W) (token : jsstring) (items : list value) :
  let x := run host (getAllNodes token) w in
  json_reply (trace_of x) = Some (inr (directory items)) ->
  forallb readable items = false ->
  result_of x = Fulfilled [].
Proof.
  intros x Hjson Hitems. subst x.
  rewrite getAllNodes_total. unfold listed_nodes. rewrite Hjson.
  unfold active_nodes, directory. cbn. now rewrite Hitems.
Qed.

(** C10.  [getAllNodes] asks the directory once, for all nodes and
    with the token, and reads the body of the response it gets.  It is
    always fulfilled with a list, never rejected and never [null]: the
    empty list when the request or the reading of the body fails and
    when the answer is malformed (an array holding [null] or
    [undefined] included), and exactly the nodes whose status is
    ["active"], in their order, when the answer's payload is an array
    of nodes.  A run of [connectDvpn] that finds the tool and gets the
    empty list, for whichever reason, ends the same way: it logs that
    no active nodes are available and returns [false]. *)
Theorem directory_failure_is_empty_set (w : W) (token nodeId : jsstring) :
  let x := run host (getAllNodes token) w in
  let y := run host (connectDvpn JSON_parse JSON_stringify token nodeId) w in
  (List.filter is_fetch (calls_of x) = [Fetch (directory_request token)] /\
   (forall r, fetch_reply (trace_of x) = Some (inr r) ->
              List.filter reads_body (calls_of x) = [ResponseJson r])) /\
  result_of x = Fulfilled (listed_nodes (trace_of x)) /\
  (some_failed is_directory_call (trace_of x) = true -> result_of x = Fulfilled []) /\
  (forall items,
      json_reply (trace_of x) = Some (inr (directory items)) ->
      (forallb readable items = true ->
       result_of x = Fulfilled (List.filter is_active items)) /\
      (forallb readable items = false -> result_of x = Fulfilled [])) /\
  (tool_found (trace_of y) = true ->
   listed_nodes (trace_of y) = [] ->
   result_of y = Fulfilled false /\
   last (calls_of y)
   = Some (Log (js "No active nodes available. Cannot connect to DVPN."))).
Proof.
  intros x y; subst x y. split; [apply getAllNodes_asks|].
  split; [apply getAllNodes_total|].
  split; [apply getAllNodes_failure|].
  split; [intros items Hjson; split;
          [now apply getAllNodes_success|now apply getAllNodes_null]|].
  focus_run host.
  unfold connectDvpn, checkWireGuard, getAllNodes.
  execute_connect host.
  all: listed.
  all: intros Htool Hnone; try discriminate.
  all: try match goal with
           | H : is_empty _ = true |- _ => rewrite H in Htool; discriminate Htool
           end.
  all: split; reflexivity.
Qed.
End Directory.


(** A directory of three nodes, the second one inactive. *)
Definition three_nodes : list value :=
  [node (js "A") (js "active"); node (js "B") (js "inactive"); node (js "C") (js "active")].

Lemma directory_failure_is_empty_set_witness :
  let unreachable := HostError (js "request to https://gateway.erebrus.io/api/v1.0/nodes/all failed") in
  let nodes listing := run (scripted (directory_host listing)) (getAllNodes (js "token")) tt in
  let connect listing :=
    run (scripted (directory_host listing))
        (connectDvpn (parse_known []) stringify_plain (js "token") (js "A")) tt in
  let failed := connect (inl unreachable) in
  let empty := connect (inr (directory [node (js "A") (js "inactive")])) in
  (List.filter is_fetch (calls_of (nodes (inr (directory three_nodes))))
   = [Fetch (directory_request (js "token"))] /\
   result_of (nodes (inr (directory three_nodes)))
   = Fulfilled [node (js "A") (js "active"); node (js "C") (js "active")] /\
   result_of (nodes (inl unreachable)) = Fulfilled [] /\
   result_of (nodes (inr (directory [VNull; node (js "A") (js "active")]))) = Fulfilled []) /\
  (result_of failed = Fulfilled false /\
   last (calls_of failed)
   = Some (Log (js "No active nodes available. Cannot connect to DVPN."))) /\
  (result_of empty = Fulfilled false /\
   last (calls_of empty)
   = Some (Log (js "No active nodes available. Cannot connect to DVPN."))).
Proof.
  intros unreachable nodes connect failed empty.
  destruct (directory_failure_is_empty_set
              (scripted (directory_host (inr (directory three_nodes))))
              (parse_known []) stringify_plain tt (js "token") (js "A"))
    as ((Hasked & _) & _ & _ & Hlisted & _).
  destruct (directory_failure_is_empty_set
              (scripted (directory_host (inr (directory [VNull; node (js "A") (js "active")]))))
              (parse_known []) stringify_plain tt (js "token") (js "A"))
    as (_ & _ & _ & Hnull & _).
  destruct (directory_failure_is_empty_set (scripted (directory_host (inl unreachable)))
              (parse_known []) stringify_plain tt (js "token") (js "A"))
    as (_ & _ & Hunreachable & _ & Hfailed).
  destruct (directory_failure_is_empty_set
              (scripted (directory_host (inr (directory [node (js "A") (js "inactive")]))))
              (parse_known []) stringify_plain tt (js "token") (js "A"))
    as (_ & _ & _ & _ & Hempty).
  split; [|split; [apply Hfailed | apply Hempty]; reflexivity].
  split; [exact Hasked|].
  split; [exact (proj1 (Hlisted three_nodes eq_refl) eq_refl)|].
  split; [exact (Hunreachable eq_refl)|].
  exact (proj2 (Hnull _ eq_refl) eq_refl).
Defined.

(** ** What [createWireGuardConfig] asks of the file system *)

Arguments get_first !v : simpl nomatch.

(** On every host and for every argument, [createWireGuardConfig] only
    logs and, at most once, writes the default path with the mode option
    [0o600]: it never changes a mode afterwards. *)
Lemma config_written_once_with_mode_option {W} (host : forall c : call, W -> reply c * W)
    (w : W) (clientData : value) :
  let x := run host (createWireGuardConfig clientData) w in
  forallb wrote_config_or_logged (calls_of x) = true /\
  (count is_write (calls_of x) <= 1)%nat.
Proof.
  intros x; subst x. focus_run host. unfold createWireGuardConfig.
  cbn.
  repeat first
    [ ask host | case_reply | case_pure
    | match goal with
      | |- context [get_first ?v] => destruct (get_first v) eqn:?; cbn
      end ].
  all: settle.
Qed.
(** * The rest of the module *)

(** ** The account functions *)

(** [v === n] against a number, given by its rendering *)
Definition strict_eq_number (v : value) (repr : jsstring) : bool :=
  match v with VNum r => jsstring_eqb r repr | _ => false end.

(** [a || b] *)
Definition or_else (a b : value) : value := if truthy a then a else b.

(** [v.k], [undefined] where the read throws. *)
Definition field (v : value) (k : jsstring) : value :=
  match get_prop v k with inr x => x | inl _ => VUndefined end.

Definition NOT_FOUND : value := VObj [(js "status", VStr (js "notFound"))].

Section Account.
(** [JSON.stringify(v)], [JSON.stringify(v, null, 2)], and what
    [JSON.stringify(response.headers)] gives for a response. *)
Variable JSON_stringify : value -> jsstring.
Variable JSON_stringify_indented : value -> jsstring.
Variable headers_text : response -> jsstring.

Definition createOrganization : async value :=
  try_catch
    (let* response :=
       attempt (Fetch (Request (js "https://gateway.netsepio.com/api/v1.1/organisation")
                               (js "POST")
                               [(js "Content-Type", js "application/json")] None)) id in
     let* data := attempt (ResponseJson response) id in
     log (js "Organization created: " ++ JSON_stringify data);;;
     ret data)
    (fun error =>
       log (js "Error creating organization: " ++ message error);;;
       ret VNull).

(** [node-fetch] makes the header value a string, [`${apiKey}`], when
    it builds the request, before anything is sent; whether the string
    is a legal header value is the host's to say. *)
Definition authenticate (apiKey : value) : async value :=
  try_catch
    ((if negb (truthy apiKey)
      then throw (Error (js "API key is required")) else ret tt);;;
     let* key := lift (ToString apiKey) in
     let* response :=
       attempt (Fetch (Request (js "https://gateway.netsepio.com/api/v1.1/organisation/token")
                               (js "GET")
                               [(js "X-API-Key", key)] None)) id in
     let* data := attempt (ResponseJson response) id in
     log (js "Authentication response: " ++ JSON_stringify data);;;
     let* st := lift (get_prop data (js "status")) in
     (if negb (strict_eq_number st (js "200"))
      then
        let* msg := lift (get_prop data (js "message")) in
        let* reason := lift (ToString (or_else msg (VStr (js "Unknown error")))) in
        throw (Error (js "Authentication failed: " ++ reason))
      else ret tt);;;
     let* payload := lift (get_prop data (js "payload")) in
     let* token := lift (get_prop payload (js "token")) in
     ret token)
    (fun error =>
       log (js "Authentication Error: " ++ message error);;;
       ret VNull).

(** [data && data.subscription && data.status], as a condition; a
    truthy [data] can be asked for a property. *)
Definition has_subscription (data : value) : bool :=
  truthy data
  && match get_prop data (js "subscription") with inr s => truthy s | inl _ => false end
  && match get_prop data (js "status") with inr s => truthy s | inl _ => false end.

Definition checkSubscription (token : jsstring) : async value :=
  try_catch
    (log (js "Checking subscription status with token: " ++ token);;;
     let* response :=
       attempt (Fetch (Request (js "https://gateway.dev.netsepio.com/api/v1.0/subscription")
                               (js "GET") (bearer token) None)) id in
     log (js "Response status: " ++ decimal (status response));;;
     log (js "Response headers: " ++ headers_text response);;;
     let* data := attempt (ResponseJson response) id in
     log (js "Raw subscription API response: " ++ JSON_stringify_indented data);;;
     if has_subscription data then ret data else ret NOT_FOUND)
    (fun error =>
       log (js "Subscription check error: " ++ message error);;;
       ret VNull).

Definition createTrialSubscription (token : jsstring) : async value :=
  try_catch
    (log (js "Creating trial subscription...");;;
     let* response :=
       attempt (Fetch (Request (js "https://gateway.dev.netsepio.com/api/v1.0/subscription/trial")
                               (js "POST") (bearer token) None)) id in
     let* data := attempt (ResponseJson response) id in
     log (js "Trial subscription response: " ++ JSON_stringify data);;;
     ret data)
    (fun error =>
       log (js "Trial subscription error: " ++ message error);;;
       ret VNull).
End Account.

(** ** Programs, whatever the host answers *)

(** [always p Q]: along every sequence of replies, the result and the
    trace of [p] satisfy [Q]. *)
Fixpoint always {R} (p : Prog R) (Q : R -> list entry -> Prop) : Prop :=
  match p with
  | Ret r => Q r []
  | Vis c k => forall x : reply c, always (k x) (fun r t => Q r (Entry c x :: t))
  end.

Lemma always_run {R W} (host : forall c : call, W -> reply c * W) (p : Prog R)
    (Q : R -> list entry -> Prop) (w : W) :
  always p Q -> Q (result_of (run host p w)) (trace_of (run host p w)).
Proof.
  revert Q w. induction p as [r|c k IH]; intros Q w Hp; [exact Hp|].
  cbn. destruct (host c w) as [x w1].
  specialize (IH x _ w1 (Hp x)).
  destruct (run host (k x) w1) as [[r t] w2]. exact IH.
Qed.

Lemma always_mono {R} (p : Prog R) (Q Q' : R -> list entry -> Prop) :
  (forall r t, Q r t -> Q' r t) -> always p Q -> always p Q'.
Proof.
  revert Q Q'. induction p as [r|c k IH]; intros Q Q' HQ Hp; cbn in *; [auto|].
  intros x. eapply IH; [|apply Hp]. cbv beta. auto.
Qed.

(** A call inside [try]: its rejection goes to the handler. *)
Lemma always_try_bind {A B} (m : async A) (k : A -> async B) (h : error -> async B)
    (Q : outcome B -> list entry -> Prop) :
  always m (fun o t =>
              match o with
              | Fulfilled a => always (try_catch (k a) h) (fun r t' => Q r (t ++ t'))
              | Rejected e => always (h e) (fun r t' => Q r (t ++ t'))
              | Escaped e => Q (Escaped e) t
              end) ->
  always (try_catch (bind m k) h) Q.
Proof.
  revert Q. induction m as [[a|e|e]|c g IH]; intros Q Hm; cbn in *; try exact Hm.
  intros x. apply IH. exact (Hm x).
Qed.

(** A call in tail position of [try]. *)
Lemma always_try {A} (m : async A) (h : error -> async A)
    (Q : outcome A -> list entry -> Prop) :
  always m (fun o t =>
              match o with
              | Rejected e => always (h e) (fun r t' => Q r (t ++ t'))
              | _ => Q o t
              end) ->
  always (try_catch m h) Q.
Proof.
  revert Q. induction m as [[a|e|e]|c g IH]; intros Q Hm; cbn in *; try exact Hm.
  intros x. apply IH. exact (Hm x).
Qed.

Lemma always_intro {R} (p : Prog R) (Q : R -> list entry -> Prop) :
  (forall r t, Q r t) -> always p Q.
Proof.
  revert Q. induction p as [r|c k IH]; intros Q HQ; cbn; [apply HQ|].
  intros x. apply IH. intros r t. apply HQ.
Qed.

(** The statement at the end of a path, kept apart from the program. *)
Definition leaf (P : Prop) : Prop := P.
Arguments leaf : simpl never.

Lemma always_leaf {R W} (host : forall c : call, W -> reply c * W) (p : Prog R)
    (Q : R -> list entry -> Prop) (w : W) :
  always p (fun r t => leaf (Q r t)) ->
  Q (result_of (run host p w)) (trace_of (run host p w)).
Proof. apply (always_run host p (fun r t => leaf (Q r t))). Qed.

(** Read a statement about a run on [host] as one about every path of
    the program. *)
Ltac on_every_path host :=
  cbv zeta; unfold calls_of;
  match goal with
  | |- context [run host ?p ?w] =>
      pattern (result_of (run host p w)), (trace_of (run host p w));
      apply always_leaf
  end.

(** Split on the tests of the account functions. *)
Ltac case_account :=
  match goal with
  | |- context [strict_eq_number ?v ?r] =>
      let H := fresh "Hstatus" in destruct (strict_eq_number v r) eqn:H; cbn
  | |- context [has_subscription ?v] =>
      let H := fresh "Hsub" in destruct (has_subscription v) eqn:H; cbn
  | |- context [get_first ?v] => destruct (get_first v) eqn:?; cbn
  end.

(** Follow a program along every reply, splitting where it looks at
    one, up to the statement at the end of each path. *)
Ltac follow_with split_on :=
  cbn;
  repeat first
    [ lazymatch goal with
      | |- leaf _ => fail
      | |- forall _, _ => intro
      end; cbn
    | lazymatch goal with |- leaf _ => fail | |- _ => idtac end;
      first [case_reply | case_pure | split_on] ];
  unfold leaf.
Ltac follow := follow_with ltac:(idtac; case_account).

(** Take a membership in a list of calls apart. *)
Ltac among H :=
  cbn in H;
  repeat match type of H with
         | _ \/ _ => destruct H as [H|H]; [try discriminate H|]
         | False => destruct H
         end.

Lemma strict_eq_number_eq (v : value) (repr : jsstring) :
  strict_eq_number v repr = true -> v = VNum repr.
Proof.
  destruct v; cbn; try discriminate. now intros ->%jsstring_eqb_eq.
Qed.

(** ** The account functions never reject *)

Section AccountProperties.
Context {W : Type} (host : forall c : call, W -> reply c * W).
Variable JSON_stringify : value -> jsstring.
Variable JSON_stringify_indented : value -> jsstring.
Variable headers_text : response -> jsstring.

(** X1.  Without a key ([undefined], [null], the empty string, or any
    other falsy argument) [authenticate] returns [null] and asks
    nothing of the network: the only thing it does is to log
    [Authentication Error: API key is required]. *)
Theorem authenticate_requires_key (w : W) (apiKey : value) :
  truthy apiKey = false ->
  let x := run host (authenticate JSON_stringify apiKey) w in
  result_of x = Fulfilled VNull /\
  calls_of x = [Log (js "Authentication Error: API key is required")].
Proof.
  intros Hkey x; subst x. unfold authenticate. rewrite Hkey. cbn.
  ask host. split; reflexivity.
Qed.

(** X2.  [authenticate] is never rejected.  What it returns is [null]
    unless the body of the response is a JSON value whose [status] is
    the number 200; then it is [payload.token] of that body, with
    nothing checked about it. *)
Theorem authenticate_token_only_on_200 (w : W) (apiKey : value) :
  let x := run host (authenticate JSON_stringify apiKey) w in
  exists v,
    result_of x = Fulfilled v /\
    (v <> VNull ->
     exists data payload,
       truthy apiKey = true /\
       json_reply (trace_of x) = Some (inr data) /\
       get_prop data (js "status") = inr (VNum (js "200")) /\
       get_prop data (js "payload") = inr payload /\
       get_prop payload (js "token") = inr v).
Proof.
  on_every_path host. unfold authenticate.
  destruct (truthy apiKey) eqn:Hkey; follow.
  all: eexists; split; [reflexivity|]; intros Hv; try congruence.
  all: apply strict_eq_number_eq in Hstatus as ->.
  all: eexists _, _; repeat split; eassumption.
Qed.

(** A body that tells of a subscription: it is truthy, and so are its
    [subscription] and its [status]. *)
Definition tells_subscription (data : value) : bool :=
  truthy data && truthy (field data (js "subscription")) && truthy (field data (js "status")).

Lemma has_subscription_tells (data : value) :
  has_subscription data = tells_subscription data.
Proof.
  unfold has_subscription, tells_subscription, field.
  destruct data; try reflexivity; cbn; now rewrite ?andb_false_r.
Qed.

(** X3.  [checkSubscription] is never rejected.  It returns [null]
    exactly when the request or the reading of the body fails.
    Otherwise it returns the body, when the body is truthy and has a
    truthy [subscription] and a truthy [status], and
    [{ status: 'notFound' }] for every other body: one without a
    subscription, one without a status, [null].  Either way the answer
    has a truthy [status]. *)
Theorem checkSubscription_answer_has_status (w : W) (token : jsstring) :
  let x := run host (checkSubscription JSON_stringify_indented headers_text token) w in
  exists v,
    result_of x = Fulfilled v /\
    ((v = VNull /\ some_failed is_directory_call (trace_of x) = true) \/
     (exists data,
         json_reply (trace_of x) = Some (inr data) /\
         some_failed is_directory_call (trace_of x) = false /\
         v = (if tells_subscription data then data else NOT_FOUND) /\
         truthy (field v (js "status")) = true)).
Proof.
  on_every_path host. unfold checkSubscription. follow.
  all: eexists; split; [reflexivity|].
  all: try (left; split; reflexivity).
  all: right; eexists; split; [reflexivity|]; split; [reflexivity|].
  all: rewrite has_subscription_tells in Hsub; rewrite Hsub.
  all: split; [reflexivity|].
  - now apply andb_prop in Hsub as [_ Hstatus].
  - reflexivity.
Qed.

(** A body with a status and no subscription, and one with both. *)
Definition no_subscription : value := VObj [(js "status", VStr (js "active"))].
Definition trial_subscription : value :=
  VObj [(js "subscription", VObj [(js "type", VStr (js "trial"))]);
        (js "status", VStr (js "active"))].

(** The body a trace was given, [null] without one. *)
Definition body_or_null (t : list entry) : value :=
  match json_reply t with Some (inr data) => data | _ => VNull end.

(** X4.  [createOrganization] and [createTrialSubscription] are never
    rejected and send one POST request, never a second one.  Each
    returns the parsed body as it is, and [null] when the request or
    the body fails; a body that is the JSON [null] is returned like a
    failure. *)
Theorem post_once_and_pass_body (w : W) (token : jsstring) :
  let x := run host (createOrganization JSON_stringify) w in
  let y := run host (createTrialSubscription JSON_stringify token) w in
  (result_of x = Fulfilled (body_or_null (trace_of x)) /\
   count is_post (calls_of x) = 1%nat) /\
  (result_of y = Fulfilled (body_or_null (trace_of y)) /\
   count is_post (calls_of y) = 1%nat).
Proof.
  cbv zeta. split.
  - on_every_path host. unfold createOrganization. follow. all: split; reflexivity.
  - on_every_path host. unfold createTrialSubscription. follow. all: split; reflexivity.
Qed.
End AccountProperties.

(** On a body with a status and no subscription the answer is
    [{ status: 'notFound' }]; on one with both it is the body. *)
Lemma checkSubscription_answer_has_status_witness :
  let check body :=
    result_of (run (scripted (directory_host (inr body)))
                   (checkSubscription stringify_plain (fun _ => js "{}") (js "token")) tt) in
  check no_subscription = Fulfilled NOT_FOUND /\
  check trial_subscription = Fulfilled trial_subscription.
Proof.
  cbv zeta. split.
  - destruct (checkSubscription_answer_has_status
                (scripted (directory_host (inr no_subscription)))
                stringify_plain (fun _ => js "{}") tt (js "token"))
      as (v & -> & [[_ Hfailed]|(data & Hbody & _ & -> & _)]).
    + vm_compute in Hfailed. discriminate Hfailed.
    + vm_compute in Hbody. injection Hbody as <-. reflexivity.
  - destruct (checkSubscription_answer_has_status
                (scripted (directory_host (inr trial_subscription)))
                stringify_plain (fun _ => js "{}") tt (js "token"))
      as (v & -> & [[_ Hfailed]|(data & Hbody & _ & -> & _)]).
    + vm_compute in Hfailed. discriminate Hfailed.
    + vm_compute in Hbody. injection Hbody as <-. reflexivity.
Defined.

Lemma authenticate_requires_key_witness :
  truthy (VStr []) = false /\
  result_of (run (scripted quiet) (authenticate stringify_plain (VStr [])) tt)
  = Fulfilled VNull.
Proof.
  split; [reflexivity|].
  exact (proj1 (authenticate_requires_key (scripted quiet) stringify_plain tt (VStr []) eq_refl)).
Defined.

(** ** The commands of bring-up and teardown *)

Definition any_command : call -> bool := is_exec (fun _ => true).

Section Commands.
Context {W : Type} (host : forall c : call, W -> reply c * W).

(** X5.  [execCommands] on any list of commands: the commands are run
    in the order of the list, each after the one before it succeeded.
    When all succeed the temporary file is unlinked and the result is
    [true].  Otherwise nothing after the first command that fails is
    run: its failure is logged, the interface is deleted, the temporary
    file is unlinked, and the promise is rejected with that command's
    error. *)
Theorem manual_steps_in_order (w : W) (tempConf : jsstring) (cmds : list jsstring) :
  let x := run host (execCommands tempConf cmds) w in
  (result_of x = Fulfilled true /\
   calls_of x = map Exec cmds ++ [Unlink tempConf] /\
   some_failed any_command (trace_of x) = false) \/
  (exists done cmd rest r e,
      cmds = done ++ cmd :: rest /\
      trace_of x !! length done = Some (Entry (Exec cmd) r) /\
      exec_error r = Some e /\
      some_failed any_command (take (length done) (trace_of x)) = false /\
      result_of x = Rejected e /\
      calls_of x =
        map Exec done
        ++ [Exec cmd; Log (js "Command failed: " ++ cmd); Log (js "Error: " ++ message e);
            Exec INTERFACE_DELETE; Unlink tempConf]).
Proof.
  cbv zeta. unfold calls_of.
  match goal with
  | |- context [run host ?p ?w] =>
      pattern (result_of (run host p w)), (trace_of (run host p w)); apply always_run
  end.
  induction cmds as [|cmd rest IH]; cbn.
  - intros x. left. repeat split.
  - intros [[e|] out err]; cbn.
    + intros l1 l2 d u. right.
      exists [], cmd, rest, (ExecResult (Some e) out err), e. repeat split.
    + eapply always_mono; [|exact IH]. cbv beta.
      intros o t [(-> & Hcalls & Hfailed)
                 |(done & c & rest' & r & e & -> & Hat & He & Hbefore & -> & Hcalls)].
      * left. cbn. rewrite Hcalls. repeat split. exact Hfailed.
      * right. exists (cmd :: done), c, rest', r, e. cbn. rewrite Hcalls.
        repeat split; assumption.
Qed.

(** X6.  Whatever the host answers, [connectToWireGuard] starts with
    the clean-up: [wg-quick down] of the interface and the deletion of
    the link come before [wg-quick up] with the configuration path, and
    a failure of either does not keep [wg-quick up] from being run. *)
Theorem bringup_starts_with_cleanup (w : W) (configPath : jsstring) :
  let x := run host (connectToWireGuard configPath) w in
  take 6 (calls_of x) =
    [Log (js "Connecting to WireGuard using config: " ++ configPath);
     Log (js "Cleaning up existing WireGuard interface...");
     Exec (js "sudo wg-quick down erebrus-dvpn");
     Exec INTERFACE_DELETE;
     Log (js "Cleanup completed");
     Exec (js "sudo wg-quick up " ++ configPath)].
Proof.
  on_every_path host. unfold connectToWireGuard. cbn. do 6 intro.
  apply always_intro. reflexivity.
Qed.

(** X7.  [disconnectVPN] and [cleanupWireGuard] always run their two
    commands, and no other: [wg-quick down] first, and then the
    deletion of the link whatever [wg-quick down] answered. *)
Theorem teardown_runs_both_commands (w : W) (configPath : option jsstring) :
  let x := run host (disconnectVPN configPath) w in
  let y := run host cleanupWireGuard w in
  List.filter any_command (calls_of x) =
    [Exec (js "sudo wg-quick down " ++ default DEFAULT_CONFIG_PATH configPath);
     Exec INTERFACE_DELETE] /\
  List.filter any_command (calls_of y) =
    [Exec (js "sudo wg-quick down erebrus-dvpn"); Exec INTERFACE_DELETE] /\
  result_of y = Fulfilled tt.
Proof.
  cbv zeta. split.
  - on_every_path host. unfold disconnectVPN. follow; reflexivity.
  - on_every_path host. unfold cleanupWireGuard. follow. split; reflexivity.
Qed.
End Commands.

(** ** What the fallback parser gives and takes *)

Lemma take_while_all {A} (p : A -> bool) (l : list A) :
  forallb p (take_while p l) = true.
Proof.
  induction l as [|x l IH]; [reflexivity|].
  cbn. destruct (p x) eqn:Hx; [|reflexivity]. cbn. now rewrite Hx.
Qed.

Lemma match_at_token (key s v : jsstring) : match_at key s = Some v -> token v = true.
Proof.
  unfold match_at.
  destruct (strip_prefix key s) as [r|]; [|discriminate].
  destruct (drop_while is_space r) as [|c r']; [discriminate|].
  destruct (c =? 61); [|discriminate].
  pose proof (take_while_all nonspace (drop_while is_space r')) as Hall.
  change (fun c => negb (is_space c)) with nonspace.
  destruct (take_while nonspace (drop_while is_space r')) as [|y l]; [discriminate|].
  intros [= <-]. unfold token. now rewrite Hall.
Qed.

Lemma regex_field_token (key s v : jsstring) : regex_field key s = Some v -> token v = true.
Proof.
  induction s as [|x s IH]; rewrite regex_field_unfold.
  - destruct (match_at key []) eqn:Hm; [|discriminate].
    intros [= <-]. eapply match_at_token, Hm.
  - destruct (match_at key (x :: s)) eqn:Hm; [|exact IH].
    intros [= <-]. eapply match_at_token, Hm.
Qed.

Lemma count_app {A} (p : A -> bool) (l l' : list A) :
  count p (l ++ l') = (count p l + count p l')%nat.
Proof. unfold count. now rewrite List.filter_app, length_app. Qed.

Lemma token_one_line (v : jsstring) : token v = true -> count (N.eqb 10) v = 0%nat.
Proof.
  intros [_ Hv]%andb_prop. induction v as [|x v IH]; [reflexivity|].
  cbn [forallb] in Hv. apply andb_prop in Hv as [Hx Hv].
  unfold count in *. cbn [List.filter].
  destruct (10 =? x) eqn:E; [|auto].
  apply N.eqb_eq in E. subst x. vm_compute in Hx. discriminate Hx.
Qed.

(** X8.  Whatever text the manual path reads, each of the five values
    it takes from it is a token: not empty, and without white space or
    a line break.  So the address is one word of the command it is put
    into, and the temporary configuration made of the other four has
    its six lines and no more. *)
Theorem parsed_fields_are_tokens (data : jsstring) (cfg : ParsedConfig) :
  parse_config data = inr cfg ->
  token (cfg_privateKey cfg) = true /\
  token (cfg_address cfg) = true /\
  token (cfg_publicKey cfg) = true /\
  token (cfg_presharedKey cfg) = true /\
  token (cfg_endpoint cfg) = true /\
  count (N.eqb 10) (wgConf cfg) = 6%nat.
Proof.
  unfold parse_config, match_field.
  destruct (regex_field (js "PrivateKey") data) as [v1|] eqn:H1; [|discriminate].
  destruct (regex_field (js "Address") data) as [v2|] eqn:H2; [|discriminate].
  destruct (regex_field (js "PublicKey") data) as [v3|] eqn:H3; [|discriminate].
  destruct (regex_field (js "PresharedKey") data) as [v4|] eqn:H4; [|discriminate].
  destruct (regex_field (js "Endpoint") data) as [v5|] eqn:H5; [|discriminate].
  intros [= <-]. cbn [cfg_privateKey cfg_address cfg_publicKey cfg_presharedKey cfg_endpoint].
  apply regex_field_token in H1, H2, H3, H4, H5.
  repeat split; try assumption.
  unfold wgConf. cbn [cfg_privateKey cfg_address cfg_publicKey cfg_presharedKey cfg_endpoint].
  rewrite !count_app.
  rewrite (token_one_line _ H1), (token_one_line _ H3), (token_one_line _ H4),
    (token_one_line _ H5).
  reflexivity.
Qed.

Lemma parsed_fields_are_tokens_witness :
  parse_config sample_config
  = inr {| cfg_privateKey := js "cFByaXZhdGVLZXk="; cfg_address := js "10.0.0.2/32";
           cfg_publicKey := js "c1B1YmxpY0tleQ=="; cfg_presharedKey := js "cFNoYXJlZEtleQ==";
           cfg_endpoint := js "vpn.example.org:51820" |} /\
  token (js "10.0.0.2/32") = true.
Proof.
  split; [vm_compute; reflexivity|].
  exact (proj1 (proj2 (parsed_fields_are_tokens sample_config _ eq_refl))).
Defined.

(** The leftmost match is a match: a field that matches somewhere in a
    text is found in it. *)
Lemma regex_field_later (key pre s : jsstring) :
  is_Some (regex_field key s) -> is_Some (regex_field key (pre ++ s)).
Proof.
  intros Hs. induction pre as [|x pre IH]; [exact Hs|].
  change ((x :: pre) ++ s) with (x :: pre ++ s). rewrite regex_field_unfold.
  destruct (match_at key (x :: pre ++ s)); [eauto|exact IH].
Qed.

Lemma drop_while_reaches (v : jsstring) (c : N) (rest : jsstring) :
  is_space c = false ->
  exists x l, drop_while is_space (v ++ c :: rest) = x :: l /\ is_space x = false.
Proof.
  intros Hc. induction v as [|y v IH]; cbn [app drop_while].
  - rewrite Hc. eauto.
  - destruct (is_space y) eqn:Hy; eauto.
Qed.

(** [KEY = ] matches where it stands when anything but white space
    comes after it, however far. *)
Lemma match_at_defined (key v : jsstring) (c : N) (rest : jsstring) :
  is_space c = false ->
  is_Some (match_at key (key ++ js " = " ++ v ++ c :: rest)).
Proof.
  intros Hc. unfold match_at. rewrite strip_prefix_app.
  change (js " = " ++ v ++ c :: rest) with (32 :: 61 :: 32 :: v ++ c :: rest).
  cbn [drop_while].
  change (is_space 32) with true. change (is_space 61) with false. cbv iota.
  change (61 =? 61) with true. cbv iota.
  cbn [drop_while]. change (is_space 32) with true. cbv iota.
  destruct (drop_while_reaches v c rest Hc) as (x & l & -> & Hx).
  cbn [take_while]. rewrite Hx. cbn [negb]. eauto.
Qed.

Lemma regex_field_defined (key lit v : jsstring) (c : N) (rest : jsstring) :
  lit = key ++ js " = " -> is_space c = false ->
  is_Some (regex_field key (lit ++ v ++ c :: rest)).
Proof.
  intros -> Hc. rewrite <- app_assoc, regex_field_unfold.
  destruct (match_at_defined key v c rest Hc) as [x ->]. eauto.
Qed.

Lemma regex_field_line (key lit v next rest : jsstring) (c : N) (tl : jsstring) :
  lit = key ++ js " = " -> next = c :: tl -> is_space c = false ->
  is_Some (regex_field key (lit ++ v ++ LF ++ next ++ rest)).
Proof.
  intros Hlit -> Hc. rewrite (app_assoc v LF).
  change ((c :: tl) ++ rest) with (c :: tl ++ rest).
  now apply regex_field_defined.
Qed.

Lemma regex_field_last (key lit v next rest : jsstring) (c : N) (tl : jsstring) :
  lit = key ++ js " = " -> next = c :: tl -> is_space c = false ->
  is_Some (regex_field key (lit ++ v ++ next ++ rest)).
Proof.
  intros Hlit -> Hc. change ((c :: tl) ++ rest) with (c :: tl ++ rest).
  now apply regex_field_defined.
Qed.

(** Walk a composed text up to where [KEY = ] stands. *)
Ltac reach_field :=
  repeat first
    [ eapply regex_field_line; [reflexivity | reflexivity | reflexivity]
    | eapply regex_field_last; [reflexivity | reflexivity | reflexivity]
    | apply regex_field_later ].

(** Whatever the five strings put into the template, all five fields
    are found in the text.  (What is found need not be what was put
    in.) *)
Lemma parse_synthesized_defined
    (privateKey address serverPublicKey presharedKey endpoint : jsstring) :
  exists cfg,
    parse_config (configContent privateKey address serverPublicKey presharedKey endpoint)
    = inr cfg.
Proof.
  unfold parse_config, match_field, configContent.
  match goal with |- context [regex_field _ ?text] => set (content := text) end.
  assert (is_Some (regex_field (js "PrivateKey") content)) as [v1 ->]
    by (subst content; reach_field).
  assert (is_Some (regex_field (js "Address") content)) as [v2 ->]
    by (subst content; reach_field).
  assert (is_Some (regex_field (js "PublicKey") content)) as [v3 ->]
    by (subst content; reach_field).
  assert (is_Some (regex_field (js "PresharedKey") content)) as [v4 ->]
    by (subst content; reach_field).
  assert (is_Some (regex_field (js "Endpoint") content)) as [v5 ->]
    by (subst content; reach_field).
  eexists. reflexivity.
Qed.

(** ** What [createWireGuardConfig] requires of its argument *)

(** [v[0]], [undefined] where the read throws. *)
Definition first_of (v : value) : value :=
  match get_first v with inr x => x | inl _ => VUndefined end.

(** [`${v}`] does not throw, and what it gives. *)
Definition converts (v : value) : bool :=
  match ToString v with inr _ => true | inl _ => false end.
Definition text_of (v : value) : jsstring :=
  match ToString v with inr text => text | inl _ => [] end.

(** [clientData], [clientData.payload], [payload.client] and
    [client.Address] are neither [null] nor [undefined]. *)
Definition required_present (clientData : value) : bool :=
  let payload := field clientData (js "payload") in
  let client := field payload (js "client") in
  readable clientData && readable payload && readable client
  && readable (field client (js "Address")).

(** The five values of the template, in the order it names them. *)
Definition template_values (clientData : value) : list value :=
  let payload := field clientData (js "payload") in
  let client := field payload (js "client") in
  [field clientData (js "privateKey");
   first_of (field client (js "Address"));
   field payload (js "serverPublicKey");
   field client (js "PresharedKey");
   field payload (js "endpoint")].

(** A text of which the manual path finds all five fields. *)
Definition parses (content : jsstring) : bool :=
  match parse_config content with inr _ => true | inl _ => false end.

Definition writes_what_parses (c : call) : bool :=
  match c with WriteFile _ content _ => parses content | _ => true end.

Lemma get_prop_readable (v : value) (k : jsstring) :
  readable v = match get_prop v k with inr _ => true | inl _ => false end.
Proof. now destruct v. Qed.

Lemma get_first_readable (v : value) :
  readable v = match get_first v with inr _ => true | inl _ => false end.
Proof. now destruct v. Qed.

Lemma destructure_payload_readable (payload : value) :
  readable payload = true ->
  destructure_payload payload
  = inr (field payload (js "client"), field payload (js "endpoint"),
         field payload (js "serverPublicKey")).
Proof. unfold destructure_payload, field. now destruct payload. Qed.

Lemma destructure_payload_unreadable (payload : value) :
  readable payload = false -> exists e, destructure_payload payload = inl e.
Proof. unfold destructure_payload. destruct payload; try discriminate; eauto. Qed.

Lemma field_read (v : value) (k : jsstring) (x : value) :
  get_prop v k = inr x -> field v k = x.
Proof. unfold field. now intros ->. Qed.

Lemma field_unread (v : value) (k : jsstring) (e : error) :
  get_prop v k = inl e -> field v k = VUndefined.
Proof. unfold field. now intros ->. Qed.

Arguments field : simpl never.

(** Turn the equations of an execution into what can be read. *)
Ltac readability :=
  repeat match goal with
         | H : destructure_payload ?v = _ |- _ =>
             let R := fresh "R" in
             let E := fresh "E" in
             destruct (readable v) eqn:R;
             [ rewrite (destructure_payload_readable _ R) in H;
               first [discriminate H | injection H as <- <- <-]
             | destruct (destructure_payload_unreadable _ R) as [? E];
               rewrite E in H; first [discriminate H | clear H E] ]
         end;
  repeat match goal with
         | H : get_prop ?v ?k = _ |- _ =>
             let R := fresh "R" in
             pose proof (get_prop_readable v k) as R; rewrite H in R;
             generalize dependent H
         | H : get_first ?v = _ |- _ =>
             let R := fresh "R" in
             pose proof (get_first_readable v) as R; rewrite H in R;
             generalize dependent H
         end;
  intros.

Section Config.
Context {W : Type} (host : forall c : call, W -> reply c * W).

(** X9.  What [createWireGuardConfig] checks of its argument.  The file
    is written exactly when [clientData], [clientData.payload],
    [payload.client] and [client.Address] are neither [null] nor
    [undefined], and each of the five values of the template can be
    made a string (an object with an own [toString] property cannot).
    No other field is required: what is written is the template filled
    with the five strings, so a value that is missing is written as the
    text [undefined].  The path is returned exactly when the write
    succeeds, and [null] otherwise; the promise is never rejected. *)
Theorem config_written_iff_required_present (w : W) (clientData : value) :
  let x := run host (createWireGuardConfig clientData) w in
  existsb is_write (calls_of x)
  = required_present clientData && forallb converts (template_values clientData) /\
  (forall path content mode,
      In (WriteFile path content mode) (calls_of x) ->
      path = DEFAULT_CONFIG_PATH /\ mode = octal [6; 0; 0] /\
      match map text_of (template_values clientData) with
      | [privateKey; address; serverPublicKey; presharedKey; endpoint] =>
          content = configContent privateKey address serverPublicKey presharedKey endpoint
      | _ => False
      end) /\
  result_of x =
    Fulfilled (if some_succeeded is_write (trace_of x)
               then Some DEFAULT_CONFIG_PATH else None).
Proof.
  on_every_path host. unfold createWireGuardConfig. follow.
  all: split; [|split; [|reflexivity]].
  all: try (intros path content mode Hin; among Hin; injection Hin as <- <- <-;
            refine (conj eq_refl (conj eq_refl _))).
  all: readability; try congruence.
  all: unfold required_present, template_values, first_of, converts, text_of; cbn in *.
  all: repeat match goal with
              | H : get_prop _ _ = inr _ |- _ => rewrite (field_read _ _ _ H); cbn
              | H : get_prop _ _ = inl _ |- _ => rewrite (field_unread _ _ _ H); cbn
              | H : get_first _ = _ |- _ => rewrite H; cbn
              | H : ToString _ = _ |- _ => rewrite H; cbn
              | H : readable _ = _ |- _ => rewrite H; cbn
              end.
  all: rewrite ?andb_false_r; try reflexivity.
Qed.

(** X10.  The manual path can read every configuration that
    [createWireGuardConfig] writes: whatever the argument holds, all
    five fields are found in the text that is written, so the parser of
    [connectToWireGuard] does not throw on it. *)
Theorem written_config_parses (w : W) (clientData : value) :
  let x := run host (createWireGuardConfig clientData) w in
  forallb writes_what_parses (calls_of x) = true.
Proof.
  on_every_path host. unfold createWireGuardConfig. follow.
  all: unfold parses.
  all: try match goal with
           | |- context [parse_config (configContent ?a ?b ?c ?d ?e)] =>
               destruct (parse_synthesized_defined a b c d e) as [? ->]
           end.
  all: reflexivity.
Qed.
End Config.

(** A provisioning answer whose preshared key is an object with an own
    [toString], and one without a server public key. *)
Definition unconvertible_client : value :=
  VObj [(js "payload",
         VObj [(js "client",
                VObj [(js "Address", VArr [VStr (js "10.0.0.2/32")]);
                      (js "PresharedKey", VObj [(js "toString", VNum (js "1"))])]);
               (js "endpoint", VStr (js "vpn.example.org"));
               (js "serverPublicKey", VStr (js "c1B1YmxpY0tleQ=="))]);
        (js "privateKey", VStr (js "cFByaXZhdGVLZXk="))].
Definition keyless_client : value :=
  VObj [(js "payload",
         VObj [(js "client",
                VObj [(js "Address", VArr [VStr (js "10.0.0.2/32")]);
                      (js "PresharedKey", VStr (js "cFNoYXJlZEtleQ=="))]);
               (js "endpoint", VStr (js "vpn.example.org"))]);
        (js "privateKey", VStr (js "cFByaXZhdGVLZXk="))].

(** Nothing is written for the first, although every required object
    is there; the second is written with [undefined] for the key. *)
Lemma config_written_iff_required_present_witness :
  let x := run (scripted quiet) (createWireGuardConfig unconvertible_client) tt in
  let y := run (scripted quiet) (createWireGuardConfig keyless_client) tt in
  (required_present unconvertible_client = true /\
   existsb is_write (calls_of x) = false /\
   result_of x = Fulfilled None) /\
  (In (WriteFile DEFAULT_CONFIG_PATH
         (configContent (js "cFByaXZhdGVLZXk=") (js "10.0.0.2/32") (js "undefined")
                        (js "cFNoYXJlZEtleQ==") (js "vpn.example.org"))
         (octal [6; 0; 0])) (calls_of y) /\
   result_of y = Fulfilled (Some DEFAULT_CONFIG_PATH)).
Proof.
  cbv zeta.
  destruct (config_written_iff_required_present (scripted quiet) tt unconvertible_client)
    as (Hwritten & _ & Hresult).
  destruct (config_written_iff_required_present (scripted quiet) tt keyless_client)
    as (Hwritten' & Hcontent & Hresult').
  split.
  - split; [reflexivity|]. split; [exact Hwritten|exact Hresult].
  - split; [|exact Hresult'].
    apply existsb_exists in Hwritten' as (c & Hc & Hwrite).
    destruct c; try discriminate Hwrite.
    destruct (Hcontent _ _ _ Hc) as (-> & -> & Htext).
    cbn in Htext. subst content. exact Hc.
Defined.

(** ** What the manual path does with what it read *)

(** The reply to the first [fs.readFile] in a trace. *)
Fixpoint file_reply (t : list entry) : option (error + jsstring) :=
  match t with
  | [] => None
  | Entry c r :: t' =>
      match c return reply c -> option (error + jsstring) with
      | ReadFile _ => fun r => Some r
      | _ => fun _ => file_reply t'
      end r
  end.

Section Fallback.
Context {W : Type} (host : forall c : call, W -> reply c * W).

(** X11.  When [connectToWireGuard] writes a file, it is the temporary
    configuration of the manual path: the text read from the
    configuration path had all five fields, the file holds the private
    key, public key, preshared key and endpoint taken from that text,
    and the mode option is [0o600].  Every [wg setconf] of the run
    names that file, and every [ip addr add] assigns the address taken
    from the text, as it stands there. *)
Theorem fallback_uses_what_it_read (w : W) (configPath : jsstring)
    (path content : jsstring) (mode : N) :
  let x := run host (connectToWireGuard configPath) w in
  In (WriteFile path content mode) (calls_of x) ->
  exists data cfg,
    In (ReadFile configPath) (calls_of x) /\
    file_reply (trace_of x) = Some (inr data) /\
    parse_config data = inr cfg /\
    content = wgConf cfg /\
    mode = octal [6; 0; 0] /\
    forall cmd, In (Exec cmd) (calls_of x) ->
      (is_step SetConf (Exec cmd) = true -> cmd = js "sudo wg setconf erebrus-dvpn " ++ path) /\
      (is_step AddrAdd (Exec cmd) = true ->
       cmd = js "sudo ip addr add " ++ cfg_address cfg ++ js " dev erebrus-dvpn").
Proof.
  on_every_path host.
  unfold connectToWireGuard, manual_setup, after_up.
  follow.
  all: intros Hin; among Hin.
  all: injection Hin as <- <- <-.
  all: eexists _, _; split; [cbn; tauto|].
  all: split; [reflexivity|]; split; [eassumption|]; split; [reflexivity|].
  all: split; [reflexivity|].
  all: intros cmd Hcmd; among Hcmd.
  all: injection Hcmd as <-.
  all: split; intros Hs; first [reflexivity | cbn in Hs; discriminate Hs].
Qed.
End Fallback.

Lemma fallback_uses_what_it_read_witness :
  let x := run (scripted (fallback_host (inr sample_config) (fun _ => false)))
               (connectToWireGuard DEFAULT_CONFIG_PATH) tt in
  In (WriteFile (js "/tmp/wg-temp-1730000000000.conf")
                (js "private_key=cFByaXZhdGVLZXk=" ++ LF
                 ++ js "public_key=c1B1YmxpY0tleQ==" ++ LF
                 ++ js "preshared_key=cFNoYXJlZEtleQ==" ++ LF
                 ++ js "endpoint=vpn.example.org:51820" ++ LF
                 ++ js "allowed_ip=0.0.0.0/0" ++ LF ++ js "allowed_ip=::/0" ++ LF)
                (octal [6; 0; 0])) (calls_of x) /\
  In (Exec (js "sudo ip addr add 10.0.0.2/32 dev erebrus-dvpn")) (calls_of x).
Proof.
  cbv zeta.
  assert (Hin : In (WriteFile (js "/tmp/wg-temp-1730000000000.conf")
                (js "private_key=cFByaXZhdGVLZXk=" ++ LF
                 ++ js "public_key=c1B1YmxpY0tleQ==" ++ LF
                 ++ js "preshared_key=cFNoYXJlZEtleQ==" ++ LF
                 ++ js "endpoint=vpn.example.org:51820" ++ LF
                 ++ js "allowed_ip=0.0.0.0/0" ++ LF ++ js "allowed_ip=::/0" ++ LF)
                (octal [6; 0; 0]))
              (calls_of (run (scripted (fallback_host (inr sample_config) (fun _ => false)))
                             (connectToWireGuard DEFAULT_CONFIG_PATH) tt))).
  { vm_compute. do 10 right. left. reflexivity. }
  split; [exact Hin|].
  destruct (fallback_uses_what_it_read
              (scripted (fallback_host (inr sample_config) (fun _ => false)))
              tt DEFAULT_CONFIG_PATH _ _ _ Hin) as (data & cfg & _ & _ & _ & _ & _ & _).
  vm_compute. do 13 right. left. reflexivity.
Defined.

(** ** What [createClient] sends and returns *)

(** A call of key generation: a directory, a command, a file. *)
Definition is_key_call (c : call) : bool :=
  match c with
  | Mkdir _ | Exec _ | ReadFile _ | Rm _ | Unlink _ => true
  | _ => false
  end.

Lemma jsstring_eqb_sym (a b : jsstring) : jsstring_eqb a b = jsstring_eqb b a.
Proof.
  destruct (jsstring_eqb a b) eqn:Hab, (jsstring_eqb b a) eqn:Hba; try reflexivity.
  - apply jsstring_eqb_eq in Hab. subst. now rewrite jsstring_eqb_refl in Hba.
  - apply jsstring_eqb_eq in Hba. subst. now rewrite jsstring_eqb_refl in Hab.
Qed.

Lemma lookup_replaced (k : jsstring) (x : value) (fields : list (jsstring * value)) :
  existsb (fun kv => jsstring_eqb (fst kv) k) fields = true ->
  lookup_field k (map (fun kv => if jsstring_eqb (fst kv) k then (k, x) else kv) fields) = x.
Proof.
  unfold lookup_field. induction fields as [|[k0 x0] fields IH]; cbn; [discriminate|].
  destruct (jsstring_eqb k0 k) eqn:Hk; cbn.
  - now rewrite jsstring_eqb_refl.
  - rewrite Hk. exact IH.
Qed.

Lemma lookup_appended (k : jsstring) (x : value) (fields : list (jsstring * value)) :
  existsb (fun kv => jsstring_eqb (fst kv) k) fields = false ->
  lookup_field k (fields ++ [(k, x)]) = x.
Proof.
  unfold lookup_field. induction fields as [|[k0 x0] fields IH]; cbn.
  - now rewrite jsstring_eqb_refl.
  - destruct (jsstring_eqb k0 k) eqn:Hk; cbn; [discriminate|exact IH].
Qed.

Lemma lookup_replaced_other (k k' : jsstring) (x : value) (fields : list (jsstring * value)) :
  jsstring_eqb k' k = false ->
  lookup_field k' (map (fun kv => if jsstring_eqb (fst kv) k then (k, x) else kv) fields)
  = lookup_field k' fields.
Proof.
  intros Hk'. unfold lookup_field.
  induction fields as [|[k0 x0] fields IH]; cbn; [reflexivity|].
  destruct (jsstring_eqb k0 k) eqn:Hk; cbn.
  - apply jsstring_eqb_eq in Hk as ->. rewrite jsstring_eqb_sym, Hk'. exact IH.
  - destruct (jsstring_eqb k0 k'); [reflexivity|exact IH].
Qed.

Lemma lookup_appended_other (k k' : jsstring) (x : value) (fields : list (jsstring * value)) :
  jsstring_eqb k' k = false ->
  lookup_field k' (fields ++ [(k, x)]) = lookup_field k' fields.
Proof.
  intros Hk'. unfold lookup_field.
  induction fields as [|[k0 x0] fields IH]; cbn.
  - now rewrite jsstring_eqb_sym, Hk'.
  - destruct (jsstring_eqb k0 k'); [reflexivity|exact IH].
Qed.

(** An assignment to a property is read back, and leaves every other
    property as it was. *)
Lemma set_prop_stores (v : value) (k : jsstring) (x : value) (fields' : list (jsstring * value)) :
  set_prop v k x = inr (VObj fields') ->
  lookup_field k fields' = x /\
  exists fields,
    v = VObj fields /\
    forall k', jsstring_eqb k' k = false -> lookup_field k' fields' = lookup_field k' fields.
Proof.
  destruct v as [| | | | | |fields]; cbn; try discriminate.
  intros [= <-].
  destruct (existsb (fun kv => jsstring_eqb (fst kv) k) fields) eqn:Hin.
  - split; [now apply lookup_replaced|].
    exists fields. split; [reflexivity|]. intros. now apply lookup_replaced_other.
  - split; [now apply lookup_appended|].
    exists fields. split; [reflexivity|]. intros. now apply lookup_appended_other.
Qed.

Lemma set_prop_readable (v : value) (k : jsstring) (x : value) :
  match set_prop v k x with
  | inr v' => readable v = true /\ readable v' = true
  | inl _ => readable v = false
  end.
Proof. destruct v; cbn; auto. Qed.

Arguments set_prop : simpl never.

(** Split on the tests of [createClient]. *)
Ltac case_client :=
  match goal with
  | |- context [set_prop ?v ?k ?x] =>
      let H := fresh "Hset" in destruct (set_prop v k x) eqn:H; cbn
  | |- context [is_empty (trim ?s)] =>
      let H := fresh "Hblank" in destruct (is_empty (trim s)) eqn:H; cbn
  | |- context [match trim ?s with [] => _ | _ :: _ => _ end] =>
      let H := fresh "Hkey" in destruct (trim s) eqn:H; cbn
  | |- context [is_empty ?s] => is_var s; destruct s; cbn
  end.

(** The texts that were read from files, in the order of the reads. *)
Fixpoint read_texts (t : list entry) : list jsstring :=
  match t with
  | [] => []
  | Entry c r :: t' =>
      match c return reply c -> list jsstring with
      | ReadFile _ =>
          fun r =>
            match r with
            | inr text => text :: read_texts t'
            | inl _ => read_texts t'
            end
      | _ => fun _ => read_texts t'
      end r
  end.

Section Client.
Context {W : Type} (host : forall c : call, W -> reply c * W).
Variable JSON_parse : jsstring -> error + value.
Variable JSON_stringify : value -> jsstring.

(** X12.  An object that [createClient] returns is the parsed body of
    the response with two properties set on it: [privateKey] is the
    trimmed text of the private key file, and [presharedKey] is the
    trimmed text of the preshared key file, which is not empty.  The
    request that was sent carried the trimmed text of the public key
    file and that same preshared key.  Every other property is as the
    server sent it. *)
Theorem client_carries_generated_keys (w : W) (token nodeId : jsstring)
    (clientName : option jsstring) (fields : list (jsstring * value)) :
  let x := run host (createClient JSON_parse JSON_stringify token nodeId clientName) w in
  result_of x = Fulfilled (VObj fields) ->
  exists privateText publicText presharedText rawText body,
    read_texts (trace_of x) = [privateText; publicText; presharedText] /\
    lookup_field (js "privateKey") fields = VStr (trim privateText) /\
    lookup_field (js "presharedKey") fields = VStr (trim presharedText) /\
    trim presharedText <> [] /\
    In (Fetch (client_request JSON_stringify token nodeId
                 (clientData_of (default (js "client") clientName)
                                (trim publicText) (trim presharedText))))
       (calls_of x) /\
    In (Log (js "Raw response: " ++ rawText)) (calls_of x) /\
    JSON_parse rawText = inr (VObj body) /\
    forall k,
      jsstring_eqb k (js "privateKey") = false ->
      jsstring_eqb k (js "presharedKey") = false ->
      lookup_field k fields = lookup_field k body.
Proof.
  on_every_path host.
  unfold createClient, parse_response, generateWireGuardKeyPair, generatePresharedKey.
  follow_with ltac:(idtac; first [
    match goal with
    | |- context [JSON_parse ?s] => destruct (JSON_parse s) eqn:?; cbn
    end | case_client]).
  all: intros Hresult; try discriminate Hresult.
  all: injection Hresult as ->.
  all: repeat match goal with
              | H : set_prop ?v ?k ?x = _ |- _ =>
                  let R := fresh "R" in
                  pose proof (set_prop_readable v k x) as R; rewrite H in R;
                  generalize dependent H
              end; intros.
  all: try (cbn in *; intuition congruence).
  all: apply set_prop_stores in Hset0 as (Hpsk & fields1 & -> & Hother1).
  all: apply set_prop_stores in Hset as (Hkey' & fields0 & -> & Hother0).
  all: eexists _, _, _, _, _.
  all: split; [reflexivity|].
  all: split; [rewrite Hother1 by reflexivity; exact Hkey'|].
  all: split; [rewrite Hkey in *; exact Hpsk|].
  all: split; [rewrite Hkey; discriminate|].
  all: split; [rewrite Hkey; cbn; tauto|].
  all: split; [cbn; tauto|].
  all: split; [eassumption|].
  all: intros k Hk1 Hk2; rewrite Hother1, Hother0 by assumption; reflexivity.
Qed.
End Client.

(** Every command succeeds, a key file holds a key and a line break,
    and the server answers [text]. *)
Definition answering (text : jsstring) (c : call) : reply c :=
  match c with
  | ResponseText _ => inr text
  | c => keygen_host (fun _ => false) (fun _ => inr (js "a2V5" ++ LF)) c
  end.

Lemma client_carries_generated_keys_witness :
  let x := run (scripted (answering (js "{}")))
               (createClient (parse_known [(js "{}", VObj [])]) stringify_plain
                             (js "token") (js "node-1") None) tt in
  result_of x
  = Fulfilled (VObj [(js "privateKey", VStr (js "a2V5")); (js "presharedKey", VStr (js "a2V5"))]) /\
  read_texts (trace_of x) = [js "a2V5" ++ LF; js "a2V5" ++ LF; js "a2V5" ++ LF].
Proof.
  cbv zeta.
  assert (Hresult :
    result_of (run (scripted (answering (js "{}")))
                   (createClient (parse_known [(js "{}", VObj [])]) stringify_plain
                                 (js "token") (js "node-1") None) tt)
    = Fulfilled (VObj [(js "privateKey", VStr (js "a2V5"));
                       (js "presharedKey", VStr (js "a2V5"))]))
    by (vm_compute; reflexivity).
  split; [exact Hresult|].
  destruct (client_carries_generated_keys (scripted (answering (js "{}"))) _ _ tt _ _ _ _ Hresult)
    as (a & b & c & _ & _ & Hreads & _).
  vm_compute. reflexivity.
Defined.

(** ** [connectDvpn], from its parts *)

Definition is_config_write (c : call) : bool :=
  match c with
  | WriteFile path _ _ => jsstring_eqb path DEFAULT_CONFIG_PATH
  | _ => false
  end.

Definition manual_steps : list step := [LinkAdd; SetConf; AddrAdd; LinkUp; RouteAdd].

(** [wg-quick up] succeeded, or each of the five manual steps did. *)
Definition brought_up (t : list entry) : bool :=
  some_succeeded is_wg_quick_up t
  || forallb (fun s => some_succeeded (is_step s) t) manual_steps.

(** The text read from [path] lacks one of the five fields. *)
Definition unparsed_at (path : jsstring) (t : list entry) : bool :=
  existsb
    (fun e =>
       match e with
       | Entry c r =>
           match c return reply c -> bool with
           | ReadFile p =>
               fun r =>
                 jsstring_eqb p path
                 && match r with
                    | inr data => negb (parses data)
                    | inl _ => false
                    end
           | _ => fun _ => false
           end r
       end) t.

Lemma unparsed_at_app (path : jsstring) (t t' : list entry) :
  unparsed_at path (t ++ t') = unparsed_at path t || unparsed_at path t'.
Proof. apply existsb_app. Qed.

Lemma unparsed_at_log (path msg : jsstring) (x : unit) (t : list entry) :
  unparsed_at path (Entry (Log msg) x :: t) = unparsed_at path t.
Proof. reflexivity. Qed.

(** What [connectDvpn] guarantees at the end of a path. *)
Definition connect_outcome (o : outcome bool) (t : list entry) : Prop :=
  rejected o = false /\
  escaped o = unparsed_at DEFAULT_CONFIG_PATH t /\
  (tool_found t = false ->
   o = Fulfilled false /\
   existsb is_fetch (map asked t) = false /\
   List.filter any_command (map asked t) = [Exec (js "which wg")]) /\
  (o = Fulfilled true ->
   tool_found t = true /\
   some_succeeded is_post t = true /\
   some_succeeded is_config_write t = true /\
   brought_up t = true).

Lemma existsb_later {A} (p : A -> bool) (l l' : list A) :
  existsb p l' = true -> existsb p (l ++ l') = true.
Proof. intros H. rewrite existsb_app, H. apply orb_true_r. Qed.

Lemma existsb_earlier {A} (p : A -> bool) (l l' : list A) :
  existsb p l = true -> existsb p (l ++ l') = true.
Proof. intros H. now rewrite existsb_app, H. Qed.

Lemma brought_up_later (t t' : list entry) :
  brought_up t' = true -> brought_up (t ++ t') = true.
Proof.
  unfold brought_up, some_succeeded. intros [H|H]%orb_prop; apply orb_true_iff.
  - left. now apply existsb_later.
  - right. cbn in *. repeat (apply andb_prop in H as [? H]).
    repeat (apply andb_true_intro; split); try reflexivity; now apply existsb_later.
Qed.

Lemma brought_up_cons (e : entry) (t : list entry) :
  brought_up t = true -> brought_up (e :: t) = true.
Proof. apply (brought_up_later [e]). Qed.

(** See the statement at the end of a path as such. *)
Ltac as_leaf :=
  match goal with
  | |- always ?p ?Q => change (always p (fun r t => leaf (Q r t)))
  end.

Section Parts.
Variable JSON_parse : jsstring -> error + value.
Variable JSON_stringify : value -> jsstring.

Lemma checkWireGuard_spec :
  always checkWireGuard
    (fun o t =>
       exists b, o = Fulfilled b /\ tool_found t = b /\
                 existsb is_fetch (map asked t) = false /\
                 List.filter any_command (map asked t) = [Exec (js "which wg")] /\
                 unparsed_at DEFAULT_CONFIG_PATH t = false).
Proof.
  as_leaf. unfold checkWireGuard.
  follow_with ltac:(idtac; case_client).
  all: eexists; split; [reflexivity|]; cbn; rewrite ?Hblank; auto.
Qed.

Lemma getAllNodes_spec (token : jsstring) :
  always (getAllNodes token)
    (fun o t => (exists nodes, o = Fulfilled nodes) /\
                unparsed_at DEFAULT_CONFIG_PATH t = false).
Proof.
  as_leaf. unfold getAllNodes. follow. all: split; [eexists; reflexivity|reflexivity].
Qed.

Lemma createClient_spec (token nodeId : jsstring) (clientName : option jsstring) :
  always (createClient JSON_parse JSON_stringify token nodeId clientName)
    (fun o t =>
       (exists v, o = Fulfilled v /\ (truthy v = true -> some_succeeded is_post t = true)) /\
       (count is_post (map asked t) <= 1)%nat /\
       (some_failed is_key_call t = true ->
        count is_post (map asked t) = 0%nat /\ o = Fulfilled VNull) /\
       unparsed_at DEFAULT_CONFIG_PATH t = false).
Proof.
  as_leaf.
  unfold createClient, parse_response, generateWireGuardKeyPair, generatePresharedKey.
  follow_with ltac:(idtac; first [
    match goal with
    | |- context [JSON_parse ?s] => destruct (JSON_parse s) eqn:?; cbn
    end | case_client]).
  all: split;
    [eexists; split; [reflexivity|]; intros H; cbn in H; try discriminate H; reflexivity|].
  all: split; [vm_compute; lia|].
  all: split; [|reflexivity].
  all: intros H; cbn in H; try discriminate H.
  all: split; reflexivity.
Qed.

Lemma createWireGuardConfig_spec (clientData : value) :
  always (createWireGuardConfig clientData)
    (fun o t =>
       exists p, o = Fulfilled p /\
                 (forall path, p = Some path ->
                               path = DEFAULT_CONFIG_PATH /\
                               some_succeeded is_config_write t = true) /\
                 unparsed_at DEFAULT_CONFIG_PATH t = false).
Proof.
  as_leaf. unfold createWireGuardConfig. follow.
  all: eexists; split; [reflexivity|]; split; [|reflexivity].
  all: intros path [= <-]; split; reflexivity.
Qed.

Lemma connect_step_spec (configPath : jsstring) :
  always (connect_step configPath)
    (fun o t =>
       rejected o = false /\
       escaped o = unparsed_at configPath t /\
       (o = Fulfilled true -> brought_up t = true)).
Proof.
  as_leaf. unfold connect_step, connectToWireGuard, manual_setup, after_up. follow.
  all: split; [reflexivity|].
  all: split; [|intros H; try discriminate H; reflexivity].
  all: unfold unparsed_at, parses; cbn; rewrite ?jsstring_eqb_refl, ?Heqs; reflexivity.
Qed.
End Parts.

Arguments checkWireGuard : simpl never.
Arguments getAllNodes : simpl never.
Arguments createClient : simpl never.
Arguments createWireGuardConfig : simpl never.
Arguments connect_step : simpl never.
Arguments unparsed_at : simpl never.

Lemma existsb_cons_later {A} (p : A -> bool) (x : A) (l : list A) :
  existsb p l = true -> existsb p (x :: l) = true.
Proof. apply (existsb_later p [x]). Qed.

(** Use what is known of a call in [try]. *)
Ltac call_with spec :=
  first [apply always_try_bind | apply always_try];
  eapply always_mono; [|apply spec]; cbv beta.

(** Something that happened in a part of a trace happened in the trace. *)
Ltac happened H :=
  repeat first
    [ exact H
    | apply existsb_cons_later
    | apply existsb_earlier; exact H
    | apply existsb_later
    | apply brought_up_cons
    | apply brought_up_later ].

(** Whether the configuration was read and found wanting, from what is
    known of the parts of a trace. *)
Ltac config_read :=
  repeat first [rewrite unparsed_at_log | rewrite unparsed_at_app];
  repeat match goal with
         | H : unparsed_at _ _ = _ |- _ => rewrite H
         | H : _ = unparsed_at _ _ |- _ => rewrite <- H
         end;
  reflexivity.

Section Connect.
Variable JSON_parse : jsstring -> error + value.
Variable JSON_stringify : value -> jsstring.

(** The tool was found on a path, so it was found. *)
Ltac found_in H Hfound :=
  match type of H with
  | tool_found ?whole = false =>
      assert (tool_found whole = true) by (unfold tool_found in *; happened Hfound);
      congruence
  end.

(** The end of a path on which [which wg] found the tool and the
    result is [false]. *)
Ltac gave_up Hfound :=
  rewrite ?app_nil_r; unfold connect_outcome;
  split; [reflexivity|];
  split; [cbn [escaped]; symmetry; config_read|];
  split; [|discriminate];
  let H := fresh "H" in
  intros H; exfalso; found_in H Hfound.

Lemma connectDvpn_spec (token nodeId : jsstring) :
  always (connectDvpn JSON_parse JSON_stringify token nodeId) connect_outcome.
Proof.
  unfold connectDvpn. cbn. intros l0.
  call_with checkWireGuard_spec.
  intros o t (b & -> & Hfound & Hfetch & Hcmds & Hread).
  destruct b; cbn.
  2: { intros l1. unfold connect_outcome.
       split; [reflexivity|]. split; [cbn [escaped]; symmetry; config_read|].
       split; [|discriminate].
       intros _. split; [reflexivity|]. cbn.
       rewrite map_app, existsb_app, List.filter_app, Hfetch, Hcmds. split; reflexivity. }
  call_with getAllNodes_spec. intros o1 t1 ((nodes & ->) & Hread1).
  destruct nodes as [|n nodes]; cbn; [intros l1; gave_up Hfound|].
  destruct (find_node nodeId (n :: nodes)) as [e|[sel|]]; cbn;
    [intros l1; gave_up Hfound| |intros l1; gave_up Hfound].
  intros l1.
  call_with createClient_spec. intros o2 t2 ((client & -> & Hpost) & _ & _ & Hread2).
  destruct (truthy client) eqn:Htruthy; cbn; [|intros l2; gave_up Hfound].
  intros l2 l3.
  destruct (ToString client) as [e|details]; cbn; [intros l4; gave_up Hfound|].
  intros l4.
  call_with createWireGuardConfig_spec. intros o3 t3 (p & -> & Hwrite & Hread3).
  destruct p as [path|]; cbn; [|intros l5; gave_up Hfound].
  destruct (Hwrite _ eq_refl) as [-> Hwritten].
  call_with connect_step_spec. intros o4 t4 (Hrejected & Hescaped & Hup).
  destruct o4 as [[|]|e|e]; [|gave_up Hfound|discriminate Hrejected|].
  - rewrite ?app_nil_r. unfold connect_outcome.
    split; [reflexivity|]. split; [cbn [escaped] in *; symmetry; config_read|].
    specialize (Hpost eq_refl). specialize (Hup eq_refl).
    split; [intros H; exfalso; found_in H Hfound|]. intros _.
    split; [unfold tool_found in *; happened Hfound|].
    split; [unfold some_succeeded in *; happened Hpost|].
    split; [unfold some_succeeded in *; happened Hwritten|].
    happened Hup.
  - rewrite ?app_nil_r. unfold connect_outcome.
    split; [reflexivity|].
    split; [cbn [escaped] in *; symmetry; config_read|].
    split; [|discriminate].
    intros H; exfalso; found_in H Hfound.
Qed.
End Connect.

Section ConnectProperties.
Context {W : Type} (host : forall c : call, W -> reply c * W).
Variable JSON_parse : jsstring -> error + value.
Variable JSON_stringify : value -> jsstring.

(** X13.  [createClient] is never rejected and sends at most one
    request.  When any step of key generation fails (making the
    directory, a [wg] command, reading a key file, or removing the
    temporary directory or file afterwards), it sends none and returns
    [null]. *)
Theorem no_request_without_keys (w : W) (token nodeId : jsstring)
    (clientName : option jsstring) :
  let x := run host (createClient JSON_parse JSON_stringify token nodeId clientName) w in
  (exists v, result_of x = Fulfilled v) /\
  (count is_post (calls_of x) <= 1)%nat /\
  (some_failed is_key_call (trace_of x) = true ->
   count is_post (calls_of x) = 0%nat /\ result_of x = Fulfilled VNull).
Proof.
  cbv zeta. unfold calls_of.
  destruct (always_run host _ _ w
              (createClient_spec JSON_parse JSON_stringify token nodeId clientName))
    as ((v & Hv & _) & Hcount & Hfailed & _).
  eauto.
Qed.

(** X14.  Without the [wg] tool ([which wg] fails or prints nothing)
    [connectDvpn] returns [false] and has asked nothing of the network:
    no request is sent, and [which wg] is the only command that is
    run. *)
Theorem connect_needs_the_tool (w : W) (token nodeId : jsstring) :
  let x := run host (connectDvpn JSON_parse JSON_stringify token nodeId) w in
  tool_found (trace_of x) = false ->
  result_of x = Fulfilled false /\
  existsb is_fetch (calls_of x) = false /\
  List.filter any_command (calls_of x) = [Exec (js "which wg")].
Proof.
  cbv zeta. unfold calls_of.
  destruct (always_run host _ _ w (connectDvpn_spec JSON_parse JSON_stringify token nodeId))
    as (_ & _ & Htool & _).
  exact Htool.
Qed.

(** X15.  [connectDvpn] is never rejected.  Its promise is left
    pending, by the exception of the parser that escapes, exactly when
    the text read from the configuration path lacks one of the five
    fields; reading a key file does not count.  On every other path it
    is fulfilled with a boolean. *)
Theorem connect_never_rejects (w : W) (token nodeId : jsstring) :
  let x := run host (connectDvpn JSON_parse JSON_stringify token nodeId) w in
  rejected (result_of x) = false /\
  escaped (result_of x) = unparsed_at DEFAULT_CONFIG_PATH (trace_of x) /\
  (unparsed_at DEFAULT_CONFIG_PATH (trace_of x) = false ->
   exists b, result_of x = Fulfilled b).
Proof.
  cbv zeta.
  destruct (always_run host _ _ w (connectDvpn_spec JSON_parse JSON_stringify token nodeId))
    as (Hrejected & Hescaped & _).
  split; [exact Hrejected|]. split; [exact Hescaped|]. intros Hparsed.
  destruct (result_of (run host (connectDvpn JSON_parse JSON_stringify token nodeId) w))
    as [b|e|e]; [eauto|discriminate Hrejected|].
  rewrite Hparsed in Hescaped. discriminate Hescaped.
Qed.

(** X16.  [connectDvpn] reports success only after the tunnel was
    brought up: when it returns [true], [which wg] found the tool, a
    provisioning request was answered, the configuration was written
    to the default path, and then [wg-quick up] succeeded or each of
    the five manual steps did. *)
Theorem connect_true_means_up (w : W) (token nodeId : jsstring) :
  let x := run host (connectDvpn JSON_parse JSON_stringify token nodeId) w in
  result_of x = Fulfilled true ->
  tool_found (trace_of x) = true /\
  some_succeeded is_post (trace_of x) = true /\
  some_succeeded is_config_write (trace_of x) = true /\
  brought_up (trace_of x) = true.
Proof.
  cbv zeta.
  destruct (always_run host _ _ w (connectDvpn_spec JSON_parse JSON_stringify token nodeId))
    as (_ & _ & _ & Htrue).
  exact Htrue.
Qed.
End ConnectProperties.

Lemma connect_needs_the_tool_witness :
  let x := run (scripted quiet)
               (connectDvpn (parse_known []) stringify_plain (js "token") (js "node-1")) tt in
  tool_found (trace_of x) = false /\ result_of x = Fulfilled false.
Proof.
  cbv zeta.
  assert (Hnone :
    tool_found (trace_of (run (scripted quiet)
                  (connectDvpn (parse_known []) stringify_plain (js "token") (js "node-1"))
                  tt)) = false) by (vm_compute; reflexivity).
  split; [exact Hnone|].
  exact (proj1 (connect_needs_the_tool (scripted quiet) (parse_known []) stringify_plain tt
                  (js "token") (js "node-1") Hnone)).
Defined.

(** The tool is installed, the directory lists one active node, key
    files hold a key, and the server answers with a provisioning
    document. *)
Definition all_is_well (c : call) : reply c :=
  match c with
  | ResponseText _ => inr (stringify_plain sample_client)
  | ReadFile _ => inr (js "a2V5" ++ LF)
  | c => directory_host (inr (directory [node (js "node-1") (js "active")])) c
  end.

(** The same, but [wg-quick up] fails and every file, the
    configuration too, holds a key and nothing else. *)
Definition no_fields (c : call) : reply c :=
  match c with
  | Exec cmd => if starts_with (wg_quick_up []) cmd then exit_1 cmd else all_is_well (Exec cmd)
  | c => all_is_well c
  end.

(** With the tool, a listed node and a provisioning document, the run
    reads three key files and no configuration: it is fulfilled.  When
    [wg-quick up] fails and the configuration holds no field, it is
    left pending. *)
Lemma connect_never_rejects_witness :
  let happy :=
    run (scripted all_is_well)
        (connectDvpn (parse_known [(stringify_plain sample_client, sample_client)])
                     stringify_plain (js "token") (js "node-1")) tt in
  let stuck :=
    run (scripted no_fields)
        (connectDvpn (parse_known [(stringify_plain sample_client, sample_client)])
                     stringify_plain (js "token") (js "node-1")) tt in
  (length (read_texts (trace_of happy)) = 3%nat /\
   unparsed_at DEFAULT_CONFIG_PATH (trace_of happy) = false /\
   exists b, result_of happy = Fulfilled b) /\
  (unparsed_at DEFAULT_CONFIG_PATH (trace_of stuck) = true /\
   escaped (result_of stuck) = true).
Proof.
  cbv zeta.
  destruct (connect_never_rejects (scripted all_is_well)
              (parse_known [(stringify_plain sample_client, sample_client)])
              stringify_plain tt (js "token") (js "node-1")) as (_ & _ & Hhappy).
  destruct (connect_never_rejects (scripted no_fields)
              (parse_known [(stringify_plain sample_client, sample_client)])
              stringify_plain tt (js "token") (js "node-1")) as (_ & Hstuck & _).
  split.
  - split; [vm_compute; reflexivity|].
    split; [vm_compute; reflexivity|].
    apply Hhappy. vm_compute. reflexivity.
  - split; [vm_compute; reflexivity|].
    rewrite Hstuck. vm_compute. reflexivity.
Defined.

Lemma connect_true_means_up_witness :
  let x := run (scripted all_is_well)
               (connectDvpn (parse_known [(stringify_plain sample_client, sample_client)])
                            stringify_plain (js "token") (js "node-1")) tt in
  result_of x = Fulfilled true /\ brought_up (trace_of x) = true.
Proof.
  cbv zeta.
  assert (Htrue :
    result_of (run (scripted all_is_well)
                 (connectDvpn (parse_known [(stringify_plain sample_client, sample_client)])
                              stringify_plain (js "token") (js "node-1")) tt)
    = Fulfilled true) by (vm_compute; reflexivity).
  split; [exact Htrue|].
  exact (proj2 (proj2 (proj2 (connect_true_means_up (scripted all_is_well) _ _ tt _ _ Htrue)))).
Defined.
